(** * DevBox.js: a shallow embedding of the logging pipeline

    The development follows [src/devbox.js].  The script is one immediately
    invoked function: it builds a panel, restores the persisted log from
    [localStorage], installs a submit listener and a [fetch] wrapper, logs
    three static captures and exposes [window.DevBox].

    Layout of the file:
    - [Js]: results and exceptions of JavaScript calls;
    - [Json]: JSON values, [JSON.stringify] and [JSON.parse];
    - [Uri]: [String.prototype.trim], [split] and [decodeURIComponent];
    - [DevBox]: the state of the script and every function of it;
    - [JsonFacts]: parsing a serialized value gives it back, the parser
      never runs out of fuel, what it returns can be serialized;
    - [Store], [Interceptors], [Renderer], [Control]: the properties of
      the four components.

    Strings are byte strings holding the UTF-8 encoding of the JavaScript
    string.  Numbers are the integers of magnitude at most 2^53; IEEE
    doubles with a fraction are outside the model.  The browser is
    present through what the script reads from it: the storage, the
    injected globals, the cookie string, the path and the clock. *)

From Stdlib Require Import ZArith NArith Ascii String List Lia.
From Stdlib Require Import DecimalString DecimalN DecimalFacts.
From stdpp Require Import base option list strings gmap.

Local Open Scope string_scope.
Local Open Scope Z_scope.

(* ===================================================================== *)
(** ** JavaScript outcomes *)
(* ===================================================================== *)

Module Js.

(** The exceptions the script can meet, and two outcomes of the model
    alone: [Unmodelled] marks an input on which the host would go on but
    which this model does not represent (a fractional number, a surrogate
    escape); [Exhausted] is a recursion that ran out of fuel, which
    [JSON_parse] never does ([JSON_parse_not_exhausted]). *)
Inductive exn : Type :=
| SyntaxError
| TypeError
| URIError
| Unmodelled
| Exhausted.

Inductive result (A : Type) : Type :=
| Ok (a : A)
| Throw (e : exn).
Arguments Ok {A} a.
Arguments Throw {A} e.

Definition bind {A B} (r : result A) (k : A -> result B) : result B :=
  match r with
  | Ok a => k a
  | Throw e => Throw e
  end.

Definition is_ok {A} (r : result A) : bool :=
  match r with Ok _ => true | Throw _ => false end.

(** [try { r } catch { d }] *)
Definition catch {A} (r : result A) (d : A) : A :=
  match r with Ok a => a | Throw _ => d end.

End Js.
Export Js.

#[global] Instance result_ret : MRet result := @Ok.
#[global] Instance result_bind : MBind result := fun A B k r => Js.bind r k.

(* ===================================================================== *)
(** ** JSON *)
(* ===================================================================== *)

Module Json.

(** A JSON value.  A number is an integer.  An object is the list of its
    own properties in insertion order; a name is a plain key: the
    accessor [__proto__] and the index-first enumeration of engines are
    not set apart. *)
#[warnings="-register-all"]
Inductive json : Type :=
| JNull
| JBool (b : bool)
| JNum (z : Z)
| JStr (s : string)
| JArr (l : list json)
| JObj (m : list (string * json)).

(** *** Objects as ordered property lists *)

(** [o[k]] on own properties. *)
Fixpoint obj_get (k : string) (m : list (string * json)) : option json :=
  match m with
  | [] => None
  | (k', v) :: m' => if String.eqb k k' then Some v else obj_get k m'
  end.

(** [o[k] = v]: an existing property keeps its position, a new one goes
    last. *)
Fixpoint obj_set (k : string) (v : json) (m : list (string * json))
  : list (string * json) :=
  match m with
  | [] => [(k, v)]
  | (k', v') :: m' =>
      if String.eqb k k' then (k', v) :: m' else (k', v') :: obj_set k v m'
  end.

(** *** Characters *)

Definition char_code (c : ascii) : N := N_of_ascii c.

Definition is_digit (c : ascii) : bool :=
  ((48 <=? char_code c) && (char_code c <=? 57))%N.

(** JSON white space: space, tab, line feed, carriage return. *)
Definition is_json_ws (c : ascii) : bool :=
  ((char_code c =? 32) || (char_code c =? 9)
   || (char_code c =? 10) || (char_code c =? 13))%N.

Fixpoint skip_ws (s : string) : string :=
  match s with
  | String c r => if is_json_ws c then skip_ws r else s
  | EmptyString => s
  end.

Definition hex_digit (n : N) : ascii :=
  (if n <? 10 then ascii_of_N (48 + n) else ascii_of_N (87 + n))%N.

Definition hex_val (c : ascii) : option N :=
  let n := char_code c in
  (if (48 <=? n) && (n <=? 57) then Some (n - 48)
   else if (97 <=? n) && (n <=? 102) then Some (n - 87)
   else if (65 <=? n) && (n <=? 70) then Some (n - 55)
   else None)%N.

(** *** JSON.stringify *)

(** QuoteJSONString, one code unit. *)
Definition escape_char (c : ascii) : string :=
  let n := char_code c in
  (if n =? 34 then String "\"%char (String "034"%char "")
   else if n =? 92 then "\\"
   else if n =? 8 then "\b"
   else if n =? 12 then "\f"
   else if n =? 10 then "\n"
   else if n =? 13 then "\r"
   else if n =? 9 then "\t"
   else if n <? 32 then
     "\u00" +:+ String (hex_digit (n / 16)) (String (hex_digit (n mod 16)) "")
   else String c "")%N.

Fixpoint escape (s : string) : string :=
  match s with
  | EmptyString => EmptyString
  | String c r => escape_char c +:+ escape r
  end.

Definition quote (s : string) : string :=
  String "034"%char (escape s +:+ String "034"%char "").

Definition stringify_N (n : N) : string :=
  NilZero.string_of_uint (N.to_uint n).

Definition stringify_Z (z : Z) : string :=
  match z with
  | Zneg p => String "-"%char (stringify_N (Npos p))
  | _ => stringify_N (Z.to_N z)
  end.

Fixpoint join (sep : string) (l : list string) : string :=
  match l with
  | [] => ""
  | [x] => x
  | x :: l' => x +:+ sep +:+ join sep l'
  end.

(** [JSON.stringify(v)] with no indentation. *)
Fixpoint JSON_stringify (v : json) : string :=
  match v with
  | JNull => "null"
  | JBool true => "true"
  | JBool false => "false"
  | JNum z => stringify_Z z
  | JStr s => quote s
  | JArr l => "[" +:+ join "," (map JSON_stringify l) +:+ "]"
  | JObj m =>
      "{" +:+
      join "," (map (fun kv => quote (fst kv) +:+ ":" +:+ JSON_stringify (snd kv)) m)
      +:+ "}"
  end.

(** [JSON.stringify(v, null, 2)]: members on their own lines, indented by
    two spaces per level; an empty array or object stays on one line. *)
Fixpoint spaces (n : nat) : string :=
  match n with
  | O => ""
  | S n' => String " "%char (spaces n')
  end.

Fixpoint JSON_stringify_pretty (depth : nat) (v : json) : string :=
  let inner := String "010"%char (spaces (2 * S depth)) in
  let outer := String "010"%char (spaces (2 * depth)) in
  match v with
  | JArr [] => "[]"
  | JArr l =>
      "[" +:+ inner
      +:+ join ("," +:+ inner) (map (JSON_stringify_pretty (S depth)) l)
      +:+ outer +:+ "]"
  | JObj [] => "{}"
  | JObj m =>
      "{" +:+ inner
      +:+ join ("," +:+ inner)
            (map (fun kv => quote (fst kv) +:+ ": "
                            +:+ JSON_stringify_pretty (S depth) (snd kv)) m)
      +:+ outer +:+ "}"
  | _ => JSON_stringify v
  end.

(** *** Values that JSON represents exactly

    An object of the language has no two properties of one name, and an
    integer survives serialization when it is a safe integer. *)
Fixpoint distinct (l : list string) : bool :=
  match l with
  | [] => true
  | k :: l' => negb (existsb (String.eqb k) l') && distinct l'
  end.

Fixpoint serializable (v : json) : bool :=
  match v with
  | JNull | JBool _ | JStr _ => true
  | JNum z => Z.abs z <=? 9007199254740992
  | JArr l => forallb serializable l
  | JObj m =>
      distinct (map fst m) && forallb (fun kv => serializable (snd kv)) m
  end.

(** *** JSON.parse *)

(** The UTF-8 bytes of a code point read from a [\uXXXX] escape. *)
Definition utf8_encode (cp : N) : result string :=
  (if cp <? 128 then Ok (String (ascii_of_N cp) "")
   else if cp <? 2048 then
     Ok (String (ascii_of_N (192 + cp / 64))
          (String (ascii_of_N (128 + cp mod 64)) ""))
   else if (55296 <=? cp) && (cp <=? 57343) then Throw Unmodelled
   else
     Ok (String (ascii_of_N (224 + cp / 4096))
          (String (ascii_of_N (128 + (cp / 64) mod 64))
             (String (ascii_of_N (128 + cp mod 64)) ""))))%N.

Definition prepend (p : string) (r : result (string * string))
  : result (string * string) :=
  match r with
  | Ok (t, rest) => Ok (p +:+ t, rest)
  | Throw e => Throw e
  end.

(** The characters of a string literal after its opening quote, up to and
    including the closing quote. *)
Fixpoint parse_string_body (s : string) : result (string * string) :=
  match s with
  | EmptyString => Throw SyntaxError
  | String c r =>
      let n := char_code c in
      (if n =? 34 then Ok ("", r)
       else if n =? 92 then
         match r with
         | EmptyString => Throw SyntaxError
         | String e r1 =>
             let k := char_code e in
             let lit (x : N) := String (ascii_of_N x) "" in
             if k =? 34 then prepend (lit 34) (parse_string_body r1)
             else if k =? 92 then prepend (lit 92) (parse_string_body r1)
             else if k =? 47 then prepend (lit 47) (parse_string_body r1)
             else if k =? 98 then prepend (lit 8) (parse_string_body r1)
             else if k =? 102 then prepend (lit 12) (parse_string_body r1)
             else if k =? 110 then prepend (lit 10) (parse_string_body r1)
             else if k =? 114 then prepend (lit 13) (parse_string_body r1)
             else if k =? 116 then prepend (lit 9) (parse_string_body r1)
             else if k =? 117 then
               match r1 with
               | String h1 (String h2 (String h3 (String h4 r2))) =>
                   match hex_val h1, hex_val h2, hex_val h3, hex_val h4 with
                   | Some a, Some b, Some c', Some d =>
                       match utf8_encode (((a * 16 + b) * 16 + c') * 16 + d) with
                       | Ok u => prepend u (parse_string_body r2)
                       | Throw x => Throw x
                       end
                   | _, _, _, _ => Throw SyntaxError
                   end
               | _ => Throw SyntaxError
               end
             else Throw SyntaxError
         end
       else if n <? 32 then Throw SyntaxError
       else prepend (String c "") (parse_string_body r))%N
  end.

Fixpoint span_digits (s : string) : string * string :=
  match s with
  | String c r =>
      if is_digit c
      then let (d, rest) := span_digits r in (String c d, rest)
      else ("", s)
  | EmptyString => ("", "")
  end.

Definition max_safe_integer : N := 9007199254740992.

(** An integer literal: an optional minus sign and digits without a
    leading zero.  A fraction or an exponent is outside the model. *)
Definition parse_number (s : string) : result (json * string) :=
  let (neg, s1) :=
    match s with
    | String c r => if (char_code c =? 45)%N then (true, r) else (false, s)
    | EmptyString => (false, s)
    end in
  let (ds, rest) := span_digits s1 in
  match ds with
  | EmptyString => Throw SyntaxError
  | String c0 ds' =>
      if (char_code c0 =? 48)%N && negb (String.eqb ds' "") then Throw SyntaxError
      else
        let frac :=
          match rest with
          | String c _ =>
              ((char_code c =? 46) || (char_code c =? 101) || (char_code c =? 69))%N
          | EmptyString => false
          end in
        if frac then Throw Unmodelled
        else
          match NilZero.uint_of_string ds with
          | Some d =>
              let n := N.of_uint d in
              if (max_safe_integer <? n)%N then Throw Unmodelled
              else Ok (JNum (if neg then - Z.of_N n else Z.of_N n), rest)
          | None => Throw SyntaxError
          end
  end.

Fixpoint strip_prefix (p s : string) : option string :=
  match p, s with
  | EmptyString, _ => Some s
  | String a p', String b s' => if Ascii.eqb a b then strip_prefix p' s' else None
  | String _ _, EmptyString => None
  end.

Definition parse_literal (s : string) : result (json * string) :=
  match strip_prefix "null" s with
  | Some r => Ok (JNull, r)
  | None =>
      match strip_prefix "true" s with
      | Some r => Ok (JBool true, r)
      | None =>
          match strip_prefix "false" s with
          | Some r => Ok (JBool false, r)
          | None => Throw SyntaxError
          end
      end
  end.

(** Recursive descent.  [fuel] bounds the nesting of calls; [JSON_parse]
    supplies more than any text can use. *)
Fixpoint parse_value (fuel : nat) (s : string) {struct fuel}
  : result (json * string) :=
  match fuel with
  | O => Throw Exhausted
  | S f =>
      match skip_ws s with
      | EmptyString => Throw SyntaxError
      | String c r =>
          let n := char_code c in
          (if n =? 91 then
             match skip_ws r with
             | String c' r' =>
                 if char_code c' =? 93 then Ok (JArr [], r')
                 else parse_elements f r []
             | EmptyString => Throw SyntaxError
             end
           else if n =? 123 then
             match skip_ws r with
             | String c' r' =>
                 if char_code c' =? 125 then Ok (JObj [], r')
                 else parse_members f r []
             | EmptyString => Throw SyntaxError
             end
           else if n =? 34 then
             match parse_string_body r with
             | Ok (t, rest) => Ok (JStr t, rest)
             | Throw e => Throw e
             end
           else if (n =? 45) || is_digit c then parse_number (String c r)
           else parse_literal (String c r))%N
      end
  end
with parse_elements (fuel : nat) (s : string) (acc : list json) {struct fuel}
  : result (json * string) :=
  match fuel with
  | O => Throw Exhausted
  | S f =>
      match parse_value f s with
      | Throw e => Throw e
      | Ok (v, rest) =>
          match skip_ws rest with
          | String c r =>
              (if char_code c =? 44 then parse_elements f r (acc ++ [v])%list
               else if char_code c =? 93 then Ok (JArr (acc ++ [v])%list, r)
               else Throw SyntaxError)%N
          | EmptyString => Throw SyntaxError
          end
      end
  end
with parse_members (fuel : nat) (s : string) (acc : list (string * json))
       {struct fuel} : result (json * string) :=
  match fuel with
  | O => Throw Exhausted
  | S f =>
      match skip_ws s with
      | String q r =>
          if (char_code q =? 34)%N then
            match parse_string_body r with
            | Throw e => Throw e
            | Ok (k, r1) =>
                match skip_ws r1 with
                | String c r2 =>
                    if (char_code c =? 58)%N then
                      match parse_value f r2 with
                      | Throw e => Throw e
                      | Ok (v, r3) =>
                          match skip_ws r3 with
                          | String c' r4 =>
                              (if char_code c' =? 44
                               then parse_members f r4 (obj_set k v acc)
                               else if char_code c' =? 125
                               then Ok (JObj (obj_set k v acc), r4)
                               else Throw SyntaxError)%N
                          | EmptyString => Throw SyntaxError
                          end
                      end
                    else Throw SyntaxError
                | EmptyString => Throw SyntaxError
                end
            end
          else Throw SyntaxError
      | EmptyString => Throw SyntaxError
      end
  end.

(** [JSON.parse(s)] *)
Definition JSON_parse (s : string) : result json :=
  match parse_value (2 * String.length s + 2) s with
  | Throw e => Throw e
  | Ok (v, rest) =>
      match skip_ws rest with
      | EmptyString => Ok v
      | String _ _ => Throw SyntaxError
      end
  end.

(** *** Predicates used to state the round trip *)

(** What may follow a value inside a text: nothing, a comma or a closing
    bracket. *)
Definition value_end (rest : string) : Prop :=
  match rest with
  | EmptyString => True
  | String c _ =>
      char_code c = 44%N \/ char_code c = 93%N \/ char_code c = 125%N
  end.

(** Parsing the serialization of [v], followed by anything that may
    follow a value, gives [v] back and leaves what follows. *)
Definition roundtrips (v : json) : Prop :=
  serializable v = true ->
  forall (fuel : nat) (rest : string),
    (String.length (JSON_stringify v) <= fuel)%nat -> value_end rest ->
    parse_value fuel (JSON_stringify v +:+ rest) = Ok (v, rest).

End Json.
Export Json.

(* ===================================================================== *)
(** ** String and URI primitives of the host *)
(* ===================================================================== *)

Module Uri.

(** [s.split(sep)] for a one-character separator: never an empty list. *)
Fixpoint split (sep : ascii) (s : string) : list string :=
  match s with
  | EmptyString => [""]
  | String c r =>
      if Ascii.eqb c sep then "" :: split sep r
      else
        match split sep r with
        | h :: t => String c h :: t
        | [] => [String c ""]
        end
  end.

(** White space and line terminators of ECMAScript, by their UTF-8 bytes:
    U+0009..U+000D and U+0020; U+00A0; U+1680; U+2000..U+200A, U+2028,
    U+2029, U+202F, U+205F; U+3000; U+FEFF. *)
Definition ws1 (a : ascii) : bool :=
  let n := char_code a in (((9 <=? n) && (n <=? 13)) || (n =? 32))%N.

Definition ws2 (a b : ascii) : bool :=
  ((char_code a =? 194) && (char_code b =? 160))%N.

Definition ws3 (a b c : ascii) : bool :=
  let x := char_code a in
  let y := char_code b in
  let z := char_code c in
  (((x =? 225) && (y =? 154) && (z =? 128))
   || ((x =? 226) && (y =? 128)
       && (((128 <=? z) && (z <=? 138)) || (z =? 168) || (z =? 169) || (z =? 175)))
   || ((x =? 226) && (y =? 129) && (z =? 159))
   || ((x =? 227) && (y =? 128) && (z =? 128))
   || ((x =? 239) && (y =? 187) && (z =? 191)))%N.

Fixpoint trim_start (s : string) : string :=
  match s with
  | EmptyString => s
  | String a r =>
      if ws1 a then trim_start r
      else
        match r with
        | String b r1 =>
            if ws2 a b then trim_start r1
            else
              match r1 with
              | String c r2 => if ws3 a b c then trim_start r2 else s
              | EmptyString => s
              end
        | EmptyString => s
        end
  end.

Fixpoint trim_end (s : string) : string :=
  match s with
  | EmptyString => s
  | String c r =>
      if String.eqb (trim_start s) "" then "" else String c (trim_end r)
  end.

(** [s.trim()] *)
Definition trim (s : string) : string := trim_end (trim_start s).

(** Well-formed UTF-8 sequences of two to four bytes (Unicode, table 3-7):
    no overlong form, no surrogate, nothing above U+10FFFF. *)
Definition cont (n : N) : bool := ((128 <=? n) && (n <=? 191))%N.

Definition valid_utf8 (o : list N) : bool :=
  match o with
  | [a; b] => ((194 <=? a) && (a <=? 223))%N && cont b
  | [a; b; c] =>
      (((a =? 224) && (160 <=? b) && (b <=? 191))
       || ((225 <=? a) && (a <=? 236) && cont b)
       || ((a =? 237) && (128 <=? b) && (b <=? 159))
       || ((238 <=? a) && (a <=? 239) && cont b))%N
      && cont c
  | [a; b; c; d] =>
      (((a =? 240) && (144 <=? b) && (b <=? 191))
       || ((241 <=? a) && (a <=? 243) && cont b)
       || ((a =? 244) && (128 <=? b) && (b <=? 143)))%N
      && cont c && cont d
  | _ => false
  end.

(** The number of bytes announced by the first byte of a sequence. *)
Definition utf8_length (b : N) : option nat :=
  (if b <? 128 then Some 1%nat
   else if b <? 192 then None
   else if b <? 224 then Some 2%nat
   else if b <? 240 then Some 3%nat
   else if b <? 248 then Some 4%nat
   else None)%N.

Definition bytes (o : list N) : string :=
  fold_right (fun n t => String (ascii_of_N n) t) "" o.

(** [decodeURIComponent]: every [%XX] is decoded; the decoded bytes of a
    run must form one well-formed UTF-8 sequence.  [oct] holds the bytes
    of a sequence under way and [need] how many are still to come. *)
Fixpoint decode (s : string) (oct : list N) (need : nat) : result string :=
  match s with
  | EmptyString =>
      match need with
      | O => Ok ""
      | S _ => Throw URIError
      end
  | String c r =>
      if (char_code c =? 37)%N then
        match r with
        | String h (String l r2) =>
            match hex_val h, hex_val l with
            | Some x, Some y =>
                let b := (x * 16 + y)%N in
                match need with
                | O =>
                    match utf8_length b with
                    | Some 1%nat =>
                        match decode r2 [] 0 with
                        | Ok t => Ok (String (ascii_of_N b) t)
                        | Throw e => Throw e
                        end
                    | Some n => decode r2 [b] (Nat.pred n)
                    | None => Throw URIError
                    end
                | S need' =>
                    if cont b then
                      match need' with
                      | O =>
                          if valid_utf8 (oct ++ [b])%list then
                            match decode r2 [] 0 with
                            | Ok t => Ok (bytes (oct ++ [b])%list +:+ t)
                            | Throw e => Throw e
                            end
                          else Throw URIError
                      | S _ => decode r2 (oct ++ [b])%list need'
                      end
                    else Throw URIError
                end
            | _, _ => Throw URIError
            end
        | _ => Throw URIError
        end
      else
        match need with
        | O =>
            match decode r [] 0 with
            | Ok t => Ok (String c t)
            | Throw e => Throw e
            end
        | S _ => Throw URIError
        end
  end.

Definition decodeURIComponent (s : string) : result string := decode s [] 0.

End Uri.
Export Uri.

(* ===================================================================== *)
(** ** The script *)
(* ===================================================================== *)

Module DevBox.

(** A value that may be [undefined], which is [None]. *)
Abbreviation value := (option json).

(** ToBoolean *)
Definition truthy (v : value) : bool :=
  match v with
  | None | Some JNull => false
  | Some (JBool b) => b
  | Some (JNum z) => negb (z =? 0)
  | Some (JStr s) => negb (String.eqb s "")
  | Some (JArr _) | Some (JObj _) => true
  end.

(** [v.k] for a name [k] that is neither an index nor [length]: reading a
    property of [null] throws, a primitive or an array has none. *)
Definition get_prop (v : json) (k : string) : result value :=
  match v with
  | JNull => Throw TypeError
  | JObj m => Ok (obj_get k m)
  | _ => Ok None
  end.

(** [Object.keys(v).length] *)
Definition keys_length (v : value) : result nat :=
  match v with
  | None | Some JNull => Throw TypeError
  | Some (JObj m) => Ok (length m)
  | Some (JArr l) => Ok (length l)
  | Some (JStr s) => Ok (String.length s)
  | Some (JBool _) | Some (JNum _) => Ok 0%nat
  end.

(** One [div] of the list pane: the value assigned to its [textContent]
    and the payload its click handler shows. *)
Record section_el : Type := {
  textContent : value;
  onclick_obj : value;
}.

(** The variables of the closure and the parts of the document and of the
    browser they reach. *)
Record state : Type := {
  visible : bool;
  blockRedirects : bool;
  stopSubmit : bool;
  display : string;                  (* devBox.style.display *)
  sidebar : list section_el;         (* children of the list pane, first first *)
  mainView : string;                 (* innerHTML of the detail pane *)
  logEntries : list json;
  localStorage : gmap string string;
}.

(** What a page load finds: the persisted storage, the globals a server
    may have injected, the cookie string, the path, and the readings of
    [toLocaleTimeString] in the order they are taken. *)
Record page : Type := {
  loaded : bool;                     (* window.__DEVBOX_LOADED__ *)
  storage : gmap string string;
  globals : gmap string json;
  cookie : string;
  pathname : string;
  clock : nat -> string;
}.

Definition LOGS : string := "__DEVBOX_LOGS".

Definition set_visible (b : bool) (d : string) (s : state) : state :=
  {| visible := b; blockRedirects := blockRedirects s;
     stopSubmit := stopSubmit s; display := d;
     sidebar := sidebar s; mainView := mainView s;
     logEntries := logEntries s; localStorage := localStorage s |}.

Definition set_blockRedirects (b : bool) (s : state) : state :=
  {| visible := visible s; blockRedirects := b;
     stopSubmit := stopSubmit s; display := display s;
     sidebar := sidebar s; mainView := mainView s;
     logEntries := logEntries s; localStorage := localStorage s |}.

Definition set_sidebar (l : list section_el) (s : state) : state :=
  {| visible := visible s; blockRedirects := blockRedirects s;
     stopSubmit := stopSubmit s; display := display s;
     sidebar := l; mainView := mainView s;
     logEntries := logEntries s; localStorage := localStorage s |}.

Definition set_mainView (h : string) (s : state) : state :=
  {| visible := visible s; blockRedirects := blockRedirects s;
     stopSubmit := stopSubmit s; display := display s;
     sidebar := sidebar s; mainView := h;
     logEntries := logEntries s; localStorage := localStorage s |}.

Definition set_logEntries (l : list json) (s : state) : state :=
  {| visible := visible s; blockRedirects := blockRedirects s;
     stopSubmit := stopSubmit s; display := display s;
     sidebar := sidebar s; mainView := mainView s;
     logEntries := l; localStorage := localStorage s |}.

Definition set_localStorage (m : gmap string string) (s : state) : state :=
  {| visible := visible s; blockRedirects := blockRedirects s;
     stopSubmit := stopSubmit s; display := display s;
     sidebar := sidebar s; mainView := mainView s;
     logEntries := logEntries s; localStorage := m |}.

(** *** Statements: a state transformer that may throw.  A throw keeps the
    state reached so far. *)
Definition M (A : Type) : Type := state -> result A * state.

#[global] Instance M_ret : MRet M := fun A a s => (Ok a, s).
#[global] Instance M_bind : MBind M := fun A B k m s =>
  match m s with
  | (Ok a, s') => k a s'
  | (Throw e, s') => (Throw e, s')
  end.

Definition lift {A} (r : result A) : M A := fun s => (r, s).
Definition modify (f : state -> state) : M unit := fun s => (Ok (), f s).
Definition exec {A} (m : M A) (s : state) : state := snd (m s).

(** *** Lines 28-115: the variables and the detached panel *)
Definition boot (p : page) : state :=
  {| visible := false; blockRedirects := false; stopSubmit := true;
     display := "none";
     sidebar := []; mainView := "";
     logEntries := []; localStorage := storage p |}.

(** *** Line 117: [JSON.parse(localStorage.getItem(LOGS) || "[]")] *)
Definition load (st : gmap string string) : result json :=
  JSON_parse
    (match st !! LOGS with
     | Some x => if String.eqb x "" then "[]" else x
     | None => "[]"
     end).

(** *** Lines 119-136 *)
Definition label_of (timestamp title : string) : string :=
  "[" +:+ timestamp +:+ "] " +:+ title.

Definition entry_of (label : string) (obj : json) : json :=
  JObj [("title", JStr label); ("obj", obj)].

Definition addLogEntry (timestamp title : string) (obj : json) (s : state)
  : state :=
  let label := label_of timestamp title in
  let section := {| textContent := Some (JStr label); onclick_obj := Some obj |} in
  let entries := (logEntries s ++ [entry_of label obj])%list in
  set_localStorage (<[LOGS := JSON_stringify (JArr entries)]> (localStorage s))
    (set_logEntries entries
       (set_sidebar (section :: sidebar s) s)).

(** The click handler of a list item, lines 128-132 and 144-148. *)
Definition section_onclick (it : section_el) : M unit :=
  n ← lift (keys_length (onclick_obj it));
  modify (set_mainView
            (match n, onclick_obj it with
             | S _, Some obj => JSON_stringify_pretty 0 obj
             | _, _ => ""
             end)).

(** *** Lines 138-150: the restored entries, appended in stored order *)
Definition restore_entry (entry : json) : M unit :=
  t ← lift (get_prop entry "title");
  modify (fun s =>
    set_sidebar
      (sidebar s ++ [{| textContent := t;
                        onclick_obj := catch (get_prop entry "obj") None |}])%list s).

Fixpoint forEach (f : json -> M unit) (l : list json) : M unit :=
  match l with
  | [] => mret ()
  | x :: l' => f x ;; forEach f l'
  end.

(** [logEntries.forEach(...)]: only an array has the method. *)
Definition restore (v : json) : M unit :=
  match v with
  | JArr l => modify (set_logEntries l) ;; forEach restore_entry l
  | _ => lift (Throw TypeError)
  end.

(** *** Lines 152-169: the submit listener *)

(** The target of a submit event: a form, with what [e.target.action]
    reads and the entries of [new FormData(e.target)] in their order (a
    file is present by its JSON image), or something else. *)
Inductive event_target : Type :=
| HTMLFormElement (action : string) (fd : list (string * json))
| OtherTarget.

(** [for (const [k, v] of fd.entries()) formData[k] = v] *)
Definition formData_of (fd : list (string * json)) : list (string * json) :=
  fold_left (fun acc kv => obj_set (fst kv) (snd kv) acc) fd [].

(** Returns whether [preventDefault] was called. *)
Definition submit_listener (timestamp path : string) (target : event_target)
    (s : state) : bool * state :=
  match stopSubmit s, target with
  | true, HTMLFormElement action fd =>
      (true,
       addLogEntry timestamp
         ("[FORM SUBMIT] " +:+ (if String.eqb action "" then path else action))
         (JObj (formData_of fd)) s)
  | _, _ => (false, s)
  end.

(** *** Lines 171-197: the fetch wrapper *)

(** [opts.body]: a string, or an object such as a [FormData], which the
    entry keeps as it is. *)
Inductive body_value : Type :=
| BodyString (b : string)
| BodyObject (o : json).

Record RequestInit : Type := {
  method : option string;
  body : option body_value;
}.

(** A response as the wrapper sees it: its identity and what reading the
    text of its clone gives. *)
Record Response : Type := {
  response_id : nat;
  clone_text : result string;
}.

Inductive settled (A : Type) : Type :=
| Fulfilled (a : A)
| Rejected (reason : string).
Arguments Fulfilled {A} a.
Arguments Rejected {A} reason.

(** [opts?.method || "GET"] *)
Definition method_of (opts : option RequestInit) : string :=
  match opts with
  | Some o =>
      match method o with
      | Some m => if String.eqb m "" then "GET" else m
      | None => "GET"
      end
  | None => "GET"
  end.

(** Lines 176-183: the entry before the request is issued. *)
Definition request_entry (url : string) (opts : option RequestInit)
  : list (string * json) :=
  let entry := [("method", JStr (method_of opts)); ("url", JStr url)] in
  match opts with
  | Some o =>
      match body o with
      | Some (BodyString b) =>
          if String.eqb b "" then entry
          else obj_set "body" (catch (JSON_parse b) (JStr b)) entry
      | Some (BodyObject v) => obj_set "body" v entry
      | None => entry
      end
  | None => entry
  end.

(** Lines 185-194: the response text, parsed when it is JSON. *)
Definition response_value (resp : Response) : json :=
  let respText := catch (clone_text resp) "" in
  catch (JSON_parse respText) (JStr respText).

(** The wrapper, run on the outcome of the original [fetch]; [s] is the
    state when the log line 195 runs (nothing before it touches the
    state). *)
Definition fetch (timestamp url : string) (opts : option RequestInit)
    (orig : settled Response) (s : state) : settled Response * state :=
  match orig with
  | Rejected reason => (Rejected reason, s)
  | Fulfilled resp =>
      let entry :=
        obj_set "response" (response_value resp) (request_entry url opts) in
      (Fulfilled resp,
       addLogEntry timestamp ("[" +:+ method_of opts +:+ "] " +:+ url)
         (JObj entry) s)
  end.

(** *** Lines 199-209: the static captures *)

(** The callback of [reduce], lines 203-207. *)
Definition cookie_step (acc : list (string * json)) (c : string)
  : result (list (string * json)) :=
  match split "=" c with
  | k :: v :: _ =>
      if negb (String.eqb k "") && negb (String.eqb v "")
      then d ← decodeURIComponent v; Ok (obj_set (trim k) (JStr d) acc)
      else Ok acc
  | _ => Ok acc
  end.

Fixpoint reduce (f : list (string * json) -> string -> result (list (string * json)))
    (l : list string) (acc : list (string * json))
  : result (list (string * json)) :=
  match l with
  | [] => Ok acc
  | c :: l' => acc' ← f acc c; reduce f l' acc'
  end.

Definition cookies_of (document_cookie : string)
  : result (list (string * json)) :=
  reduce cookie_step (split ";" document_cookie) [].

(** [window.__DEVBOX_SESSION || {}] *)
Definition session_of (g : gmap string json) : json :=
  match g !! "__DEVBOX_SESSION" with
  | Some v => if truthy (Some v) then v else JObj []
  | None => JObj []
  end.

Definition static_captures (p : page) : M unit :=
  modify (addLogEntry (clock p 0) "[SESSION]" (session_of (globals p))) ;;
  cookies ← lift (cookies_of (cookie p));
  modify (addLogEntry (clock p 1) "[COOKIES]" (JObj cookies)) ;;
  modify (addLogEntry (clock p 2) "[PAGE]" (JObj [("pathname", JStr (pathname p))])).

(** Lines 117-150: the persisted log, read and shown. *)
Definition restore_log (p : page) : M unit :=
  v ← lift (load (storage p));
  restore v.

(** *** The body of the function after the guard, lines 28-240 *)
Definition init (p : page) : M unit :=
  restore_log p ;;
  static_captures p.

(** Lines 24-26: a second run in the same window does nothing. *)
Definition script (p : page) : option (result unit * state) :=
  if loaded p then None else Some (init p (boot p)).

(** *** Lines 69-72 and 107-111: the tab and the Clear Logs button *)
Definition devBoxTab_onclick (s : state) : state :=
  let v := negb (visible s) in
  set_visible v (if v then "flex" else "none") s.

Definition clearBtn_onclick (s : state) : state :=
  set_localStorage (delete LOGS (localStorage s))
    (set_mainView "" (set_sidebar [] s)).

(** *** Lines 211-234: [window.DevBox] *)
Definition open (s : state) : state := set_visible true "flex" s.

Definition close (s : state) : state := set_visible false "none" s.

Definition toggle (s : state) : state :=
  let v := negb (visible s) in
  set_visible v (if v then "flex" else "none") s.

Definition isOpen (s : state) : bool := visible s.

Definition clear (s : state) : state :=
  set_localStorage (delete LOGS (localStorage s))
    (set_logEntries [] (set_mainView "" (set_sidebar [] s))).

Definition setBlockRedirects (val : value) (s : state) : state :=
  set_blockRedirects (truthy val) s.

(** Lines 236-238 *)
Definition keydown (ctrlKey metaKey : bool) (key : string) (s : state) : state :=
  if (ctrlKey || metaKey) && String.eqb key "`" then toggle s else s.

(** The panel is shown unless its [display] is [none]. *)
Definition displayed (s : state) : bool :=
  negb (String.eqb (display s) "none").

(** The list item built for a restored entry. *)
Definition restored_item (entry : json) : section_el :=
  {| textContent := catch (get_prop entry "title") None;
     onclick_obj := catch (get_prop entry "obj") None |}.

(** The three static entries of a page. *)
Definition static_entries (p : page) (cookies : list (string * json))
  : list json :=
  [ entry_of (label_of (clock p 0) "[SESSION]") (session_of (globals p));
    entry_of (label_of (clock p 1) "[COOKIES]") (JObj cookies);
    entry_of (label_of (clock p 2) "[PAGE]")
      (JObj [("pathname", JStr (pathname p))]) ].

(** The flag and the style of the panel say the same. *)
Definition panel_ok (s : state) : Prop :=
  display s = if visible s then "flex" else "none".

(** A statement that leaves the flag and the style alone. *)
Definition keeps_panel {A : Type} (m : M A) : Prop :=
  forall s, visible (snd (m s)) = visible s /\ display (snd (m s)) = display s.

(** *** Sequences of operations *)

(** A call of a method of [window.DevBox]; [isOpen] only reads. *)
Inductive api_call : Type :=
| Open
| Close
| Toggle
| IsOpen
| Clear
| SetBlockRedirects (val : value).

Definition call (c : api_call) (s : state) : state :=
  match c with
  | Open => open s
  | Close => close s
  | Toggle => toggle s
  | IsOpen => s
  | Clear => clear s
  | SetBlockRedirects val => setBlockRedirects val s
  end.

(** The operations that show or hide the panel. *)
Inductive control : Type :=
| DoOpen
| DoClose
| DoToggle
| TabClick.

Definition control_step (c : control) (s : state) : state :=
  match c with
  | DoOpen => open s
  | DoClose => close s
  | DoToggle => toggle s
  | TabClick => devBoxTab_onclick s
  end.

Definition run_controls (cs : list control) (s : state) : state :=
  fold_left (fun s c => control_step c s) cs s.

(** One call of [addLogEntry]: the time read, the title and the payload. *)
Record logged : Type := {
  at_time : string;
  titled : string;
  payload : json;
}.

Definition log_all (evs : list logged) (s : state) : state :=
  fold_left (fun s e => addLogEntry (at_time e) (titled e) (payload e) s) evs s.

Definition entry_of_logged (e : logged) : json :=
  entry_of (label_of (at_time e) (titled e)) (payload e).


(** *** Pages to run the script on *)

Definition noon (n : nat) : string := "12:00:00".

(** Nothing persisted, nothing injected, no cookie. *)
Definition blank_page : page :=
  {| loaded := false; storage := ∅; globals := ∅; cookie := "";
     pathname := "/"; clock := noon |}.

Definition with_storage (st : gmap string string) (p : page) : page :=
  {| loaded := loaded p; storage := st; globals := globals p;
     cookie := cookie p; pathname := pathname p; clock := clock p |}.

Definition with_globals (g : gmap string json) (p : page) : page :=
  {| loaded := loaded p; storage := storage p; globals := g;
     cookie := cookie p; pathname := pathname p; clock := clock p |}.

Definition with_cookie (c : string) (p : page) : page :=
  {| loaded := loaded p; storage := storage p; globals := globals p;
     cookie := c; pathname := pathname p; clock := clock p |}.

(** A truncated value, as an interrupted write would leave. *)
Definition truncated_log : gmap string string := {[ LOGS := "[{" ]}.

(** A form submission and a request, as the two interceptors log them. *)
Definition two_events : list logged :=
  [ {| at_time := "12:00:01"; titled := "[FORM SUBMIT] /signup";
       payload := JObj [("name", JStr "a"); ("email", JStr "b@x.com")] |};
    {| at_time := "12:00:02"; titled := "[POST] /api/x";
       payload := JObj [("method", JStr "POST"); ("url", JStr "/api/x");
                        ("body", JObj [("q", JNum 1)]);
                        ("response", JArr [JBool true; JNull; JNum (-3)])] |} ].

(** A cookie whose value holds a bare percent sign. *)
Definition percent_page : page :=
  with_cookie "theme=dark; discount=50%" blank_page.

(** The form of the specification: two fields, then [name] again. *)
Definition signup_form : event_target :=
  HTMLFormElement "/signup"
    [("name", JStr "a"); ("email", JStr "b@x.com"); ("name", JStr "c")].

(** A page whose server injected all four globals. *)
Definition injected_page : page :=
  with_globals
    (<[ "__DEVBOX_SESSION" := JObj [("user", JStr "u1")] ]>
       (<[ "__DEVBOX_GET" := JObj [("q", JStr "1")] ]>
          (<[ "__DEVBOX_POST" := JObj [("name", JStr "a")] ]>
             (<[ "__DEVBOX_FILE" := JStr "/index.php" ]> ∅))))
    blank_page.

(** *** The contracts in the words of the specification *)


(** The name and the raw value of a piece of the cookie string that has
    both. *)
Definition piece_pair (c : string) : option (string * string) :=
  match split "=" c with
  | k :: v :: _ =>
      if negb (String.eqb k "") && negb (String.eqb v "") then Some (k, v)
      else None
  | _ => None
  end.

Definition cookie_pairs (document_cookie : string) : list (string * string) :=
  omap piece_pair (split ";" document_cookie).

(** Last write wins: the raw value of the last pair whose trimmed name is
    [k]. *)
Fixpoint last_cookie (k : string) (pairs : list (string * string))
  : option string :=
  match pairs with
  | [] => None
  | (n, v) :: pairs' =>
      match last_cookie k pairs' with
      | Some w => Some w
      | None => if String.eqb k (trim n) then Some v else None
      end
  end.





(** *** Every handler the script installs, as one event type *)

Inductive event : Type :=
| OnControl (c : control)
| OnKeydown (ctrlKey metaKey : bool) (key : string)
| OnApi (c : api_call)
| OnClearBtn
| OnSubmit (timestamp path : string) (target : event_target)
| OnFetch (timestamp url : string) (opts : option RequestInit)
    (orig : settled Response)
| OnItemClick (i : nat).

(** What an event leaves behind.  A click on the [i]-th child of the list
    pane runs its handler; a handler that throws leaves the state as it
    found it. *)
Definition handle (e : event) (s : state) : state :=
  match e with
  | OnControl c => control_step c s
  | OnKeydown ctrlKey metaKey key => keydown ctrlKey metaKey key s
  | OnApi c => call c s
  | OnClearBtn => clearBtn_onclick s
  | OnSubmit timestamp path target =>
      snd (submit_listener timestamp path target s)
  | OnFetch timestamp url opts orig => snd (fetch timestamp url opts orig s)
  | OnItemClick i =>
      match sidebar s !! i with
      | Some it => exec (section_onclick it) s
      | None => s
      end
  end.

Definition run (evs : list event) (s : state) : state :=
  fold_left (fun s e => handle e s) evs s.

(** The state the script leaves when its body has run, to its end or to a
    throw. *)
Definition started (p : page) : state := exec (init p) (boot p).


(** The list item [addLogEntry] builds. *)
Definition item_of_logged (e : logged) : section_el :=
  {| textContent := Some (JStr (label_of (at_time e) (titled e)));
     onclick_obj := Some (payload e) |}.

(** The state without its [blockRedirects] flag. *)
Definition without_flag (s : state) : state := set_blockRedirects false s.

Definition is_setBlockRedirects (e : event) : bool :=
  match e with
  | OnApi (SetBlockRedirects _) => true
  | _ => false
  end.


Definition is_clearBtn (e : event) : bool :=
  match e with
  | OnClearBtn => true
  | _ => false
  end.



(** A statement whose end state is related to its start state by [R]. *)
Definition keeps {A : Type} (R : state -> state -> Prop) (m : M A) : Prop :=
  forall s, R s (snd (m s)).

(** Nothing but the key of the log differs. *)
Definition same_other_keys (s s' : state) : Prop :=
  forall k, k <> LOGS -> localStorage s' !! k = localStorage s !! k.



(** The state at the end of an initialization that restored [l] and read
    the cookies [cookies]. *)
Definition initialised (p : page) (l : list json)
    (cookies : list (string * json)) : state :=
  addLogEntry (clock p 2) "[PAGE]" (JObj [("pathname", JStr (pathname p))])
    (addLogEntry (clock p 1) "[COOKIES]" (JObj cookies)
       (addLogEntry (clock p 0) "[SESSION]" (session_of (globals p))
          (set_sidebar (map restored_item l) (set_logEntries l (boot p))))).



End DevBox.
Export DevBox.

(* ===================================================================== *)
(** ** Facts about JSON: parsing a serialized value gives it back *)
(* ===================================================================== *)

Module JsonFacts.

#[local] Arguments String.append : simpl nomatch.

(** *** Strings *)

Lemma app_assoc (s t u : string) : (s +:+ t) +:+ u = s +:+ (t +:+ u).
Proof. induction s as [|c s IH]; simpl; [reflexivity | now rewrite IH]. Qed.

Lemma app_nil_r (s : string) : s +:+ "" = s.
Proof. induction s as [|c s IH]; simpl; [reflexivity | now rewrite IH]. Qed.

Lemma length_app (s t : string) :
  String.length (s +:+ t) = (String.length s + String.length t)%nat.
Proof. induction s as [|c s IH]; simpl; [reflexivity | now rewrite IH]. Qed.

(** *** String literals *)

Lemma parse_escape_char (c : ascii) (t : string) :
  parse_string_body (escape_char c +:+ t)
  = prepend (String c "") (parse_string_body t).
Proof. destruct c as [[|] [|] [|] [|] [|] [|] [|] [|]]; reflexivity. Qed.

Lemma parse_escape (s rest : string) :
  parse_string_body (escape s +:+ String "034"%char rest) = Ok (s, rest).
Proof.
  induction s as [|c s IH]; [reflexivity|].
  cbn [escape]. rewrite app_assoc, parse_escape_char, IH. reflexivity.
Qed.

Lemma quote_app (s rest : string) :
  quote s +:+ rest = String "034"%char (escape s +:+ String "034"%char rest).
Proof. unfold quote. simpl. now rewrite app_assoc. Qed.

(** *** Numbers *)

Lemma value_end_not_digit (c : ascii) (r : string) :
  value_end (String c r) ->
  is_digit c = false
  /\ ((char_code c =? 46) || (char_code c =? 101) || (char_code c =? 69))%N = false
  /\ is_json_ws c = false.
Proof.
  unfold is_digit, is_json_ws. simpl.
  intros [-> | [-> | ->]]; repeat split; reflexivity.
Qed.

Lemma span_digits_uint (d : Decimal.uint) (rest : string) :
  value_end rest ->
  span_digits (NilEmpty.string_of_uint d +:+ rest)
  = (NilEmpty.string_of_uint d, rest).
Proof.
  intros Hend.
  induction d; simpl; rewrite ?IHd; try reflexivity.
  destruct rest as [|c r]; [reflexivity|].
  simpl. now destruct (value_end_not_digit c r Hend) as (-> & _).
Qed.

Lemma to_uint_normal (n : N) : Decimal.unorm (N.to_uint n) = N.to_uint n.
Proof.
  rewrite <- (DecimalN.Unsigned.of_to n) at 2.
  now rewrite DecimalN.Unsigned.to_of.
Qed.

Lemma to_uint_D0 (n : N) (d : Decimal.uint) :
  N.to_uint n = Decimal.D0 d -> d = Decimal.Nil.
Proof.
  intros E. pose proof (to_uint_normal n) as Hn. rewrite E in Hn.
  destruct (Decimal.nzhead (Decimal.D0 d)) eqn:Hz;
    [unfold Decimal.unorm in Hn; rewrite Hz in Hn; now injection Hn | ..];
    exfalso; rewrite unorm_nzhead in Hn by (rewrite Hz; discriminate);
    now apply (nzhead_nonzero (Decimal.D0 d) d).
Qed.

(** The digits of a natural number: at least one, all decimal, and a
    leading zero only for zero itself. *)
Lemma stringify_N_shape (n : N) :
  exists c t,
    stringify_N n = String c t
    /\ NilEmpty.string_of_uint (N.to_uint n) = String c t
    /\ is_digit c = true
    /\ (char_code c = 48%N -> t = "").
Proof.
  unfold stringify_N, NilZero.string_of_uint.
  destruct (N.to_uint n) as [|d|d|d|d|d|d|d|d|d|d] eqn:E.
  - exfalso. apply (unorm_nonnil (N.to_uint n)).
    now rewrite to_uint_normal.
  - apply to_uint_D0 in E. subst d. now exists "0"%char, "".
  - eexists _, _. repeat split. discriminate.
  - eexists _, _. repeat split. discriminate.
  - eexists _, _. repeat split. discriminate.
  - eexists _, _. repeat split. discriminate.
  - eexists _, _. repeat split. discriminate.
  - eexists _, _. repeat split. discriminate.
  - eexists _, _. repeat split. discriminate.
  - eexists _, _. repeat split. discriminate.
  - eexists _, _. repeat split. discriminate.
Qed.

Lemma is_digit_not_minus (c : ascii) :
  is_digit c = true -> (char_code c =? 45)%N = false.
Proof.
  unfold is_digit. intros H. apply andb_prop in H as [H1 H2].
  apply N.leb_le in H1. apply N.eqb_neq. lia.
Qed.

Lemma digits_after_sign (n : N) (rest : string) :
  (n <= max_safe_integer)%N -> value_end rest ->
  forall neg : bool,
  (let (ds, rest') := span_digits (stringify_N n +:+ rest) in
   match ds with
   | EmptyString => Throw SyntaxError
   | String c0 ds' =>
       if (char_code c0 =? 48)%N && negb (String.eqb ds' "") then Throw SyntaxError
       else
         let frac :=
           match rest' with
           | String c _ =>
               ((char_code c =? 46) || (char_code c =? 101) || (char_code c =? 69))%N
           | EmptyString => false
           end in
         if frac then Throw Unmodelled
         else
           match NilZero.uint_of_string ds with
           | Some d =>
               let k := N.of_uint d in
               if (max_safe_integer <? k)%N then Throw Unmodelled
               else Ok (JNum (if neg then - Z.of_N k else Z.of_N k), rest')
           | None => Throw SyntaxError
           end
   end) = Ok (JNum (if neg then - Z.of_N n else Z.of_N n), rest).
Proof.
  intros Hn Hend neg.
  destruct (stringify_N_shape n) as (c & t & E1 & E2 & Hc & Hz).
  rewrite E1, <- E2, (span_digits_uint _ _ Hend), E2.
  assert (Hlead : (char_code c =? 48)%N && negb (String.eqb t "") = false).
  { destruct (N.eqb_spec (char_code c) 48) as [e|]; [|reflexivity].
    now rewrite (Hz e). }
  rewrite Hlead.
  assert (Hfrac : match rest with
                  | String c _ =>
                      ((char_code c =? 46) || (char_code c =? 101)
                       || (char_code c =? 69))%N
                  | EmptyString => false
                  end = false).
  { destruct rest as [|a r]; [reflexivity|].
    now destruct (value_end_not_digit a r Hend) as (_ & -> & _). }
  cbv zeta. rewrite Hfrac.
  assert (Hparse : NilZero.uint_of_string (String c t) = Some (N.to_uint n)).
  { change (NilZero.uint_of_string (String c t))
      with (NilEmpty.uint_of_string (String c t)).
    rewrite <- E2. apply NilEmpty.usu. }
  rewrite Hparse, DecimalN.Unsigned.of_to.
  apply N.ltb_ge in Hn. now rewrite Hn.
Qed.

Lemma parse_number_stringify (z : Z) (rest : string) :
  Z.abs z <= Z.of_N max_safe_integer -> value_end rest ->
  parse_number (stringify_Z z +:+ rest) = Ok (JNum z, rest).
Proof.
  intros Hz Hend. unfold parse_number.
  assert (Hsign : forall n,
    match stringify_N n +:+ rest with
    | String c r =>
        if (char_code c =? 45)%N then (true, r)
        else (false, stringify_N n +:+ rest)
    | EmptyString => (false, stringify_N n +:+ rest)
    end = (false, stringify_N n +:+ rest)).
  { intros n. destruct (stringify_N_shape n) as (c & t & E1 & _ & Hc & _).
    rewrite E1. cbn [String.append]. now rewrite (is_digit_not_minus c Hc). }
  destruct z as [|p|p].
  - cbn [stringify_Z Z.to_N]. rewrite Hsign.
    apply (digits_after_sign 0 rest) with (neg := false);
      [now vm_compute | exact Hend].
  - cbn [stringify_Z Z.to_N]. rewrite Hsign.
    apply (digits_after_sign (N.pos p) rest) with (neg := false);
      [|exact Hend]. unfold max_safe_integer in *. lia.
  - cbn [stringify_Z String.append]. change (char_code "-" =? 45)%N with true.
    cbv iota.
    apply (digits_after_sign (N.pos p) rest) with (neg := true);
      [|exact Hend]. unfold max_safe_integer in *. lia.
Qed.

(** *** Induction on nested values *)

Lemma json_ind_nested (P : json -> Prop) :
  P JNull -> (forall b, P (JBool b)) -> (forall z, P (JNum z)) ->
  (forall s, P (JStr s)) ->
  (forall l, Forall P l -> P (JArr l)) ->
  (forall m, Forall (fun kv => P (snd kv)) m -> P (JObj m)) ->
  forall v, P v.
Proof.
  intros Hnull Hbool Hnum Hstr Harr Hobj.
  fix IH 1. intros [|b|z|s|l|m].
  - exact Hnull.
  - apply Hbool.
  - apply Hnum.
  - apply Hstr.
  - apply Harr. revert l. fix IHl 1. intros [|x l].
    + constructor.
    + constructor; [apply IH | apply IHl].
  - apply Hobj. revert m. fix IHm 1. intros [|[k x] m].
    + constructor.
    + constructor; [apply IH | apply IHm].
Qed.

(** *** The dispatch of [parse_value] on the first character *)

Lemma parse_value_S (f : nat) (s : string) :
  parse_value (S f) s
  = match skip_ws s with
    | EmptyString => Throw SyntaxError
    | String c r =>
        let n := char_code c in
        (if n =? 91 then
           match skip_ws r with
           | String c' r' =>
               if char_code c' =? 93 then Ok (JArr [], r')
               else parse_elements f r []
           | EmptyString => Throw SyntaxError
           end
         else if n =? 123 then
           match skip_ws r with
           | String c' r' =>
               if char_code c' =? 125 then Ok (JObj [], r')
               else parse_members f r []
           | EmptyString => Throw SyntaxError
           end
         else if n =? 34 then
           match parse_string_body r with
           | Ok (t, rest) => Ok (JStr t, rest)
           | Throw e => Throw e
           end
         else if (n =? 45) || is_digit c then parse_number (String c r)
         else parse_literal (String c r))%N
    end.
Proof. reflexivity. Qed.

Lemma parse_elements_S (f : nat) (s : string) (acc : list json) :
  parse_elements (S f) s acc
  = match parse_value f s with
    | Throw e => Throw e
    | Ok (v, rest) =>
        match skip_ws rest with
        | String c r =>
            (if char_code c =? 44 then parse_elements f r (acc ++ [v])%list
             else if char_code c =? 93 then Ok (JArr (acc ++ [v])%list, r)
             else Throw SyntaxError)%N
        | EmptyString => Throw SyntaxError
        end
    end.
Proof. reflexivity. Qed.

Lemma parse_members_S (f : nat) (s : string) (acc : list (string * json)) :
  parse_members (S f) s acc
  = match skip_ws s with
    | String q r =>
        if (char_code q =? 34)%N then
          match parse_string_body r with
          | Throw e => Throw e
          | Ok (k, r1) =>
              match skip_ws r1 with
              | String c r2 =>
                  if (char_code c =? 58)%N then
                    match parse_value f r2 with
                    | Throw e => Throw e
                    | Ok (v, r3) =>
                        match skip_ws r3 with
                        | String c' r4 =>
                            (if char_code c' =? 44
                             then parse_members f r4 (obj_set k v acc)
                             else if char_code c' =? 125
                             then Ok (JObj (obj_set k v acc), r4)
                             else Throw SyntaxError)%N
                        | EmptyString => Throw SyntaxError
                        end
                    end
                  else Throw SyntaxError
              | EmptyString => Throw SyntaxError
              end
          end
        else Throw SyntaxError
    | EmptyString => Throw SyntaxError
    end.
Proof. reflexivity. Qed.

Lemma parse_value_number (f : nat) (c : ascii) (r : string) :
  ((char_code c =? 45)%N || is_digit c) = true ->
  parse_value (S f) (String c r) = parse_number (String c r).
Proof.
  intros H. rewrite parse_value_S. cbn [skip_ws].
  assert (Hc : (char_code c = 45 \/ 48 <= char_code c <= 57)%N).
  { apply orb_prop in H as [H|H].
    - left. now apply N.eqb_eq.
    - right. unfold is_digit in H. apply andb_prop in H as [H1 H2].
      apply N.leb_le in H1. apply N.leb_le in H2. lia. }
  assert (Hws : is_json_ws c = false).
  { unfold is_json_ws.
    repeat match goal with
           | |- context [(?a =? ?b)%N] => destruct (N.eqb_spec a b); [lia|]
           end.
    reflexivity. }
  rewrite Hws. cbv zeta.
  repeat match goal with
         | |- context [(char_code c =? ?b)%N] =>
             lazymatch b with
             | 45%N => fail
             | _ => destruct (N.eqb_spec (char_code c) b); [lia|]
             end
         end.
  now rewrite H.
Qed.

Lemma stringify_Z_head (z : Z) :
  exists c t,
    stringify_Z z = String c t /\ ((char_code c =? 45)%N || is_digit c) = true.
Proof.
  destruct z as [|p|p]; cbn [stringify_Z].
  - destruct (stringify_N_shape (Z.to_N 0)) as (c & t & E & _ & Hc & _).
    exists c, t. rewrite Hc. split; [exact E | apply orb_true_r].
  - destruct (stringify_N_shape (Z.to_N (Z.pos p))) as (c & t & E & _ & Hc & _).
    exists c, t. rewrite Hc. split; [exact E | apply orb_true_r].
  - eexists _, _. split; reflexivity.
Qed.

(** *** Lists of elements and of members *)

Lemma skip_ws_head (c : ascii) (r : string) :
  is_json_ws c = false -> skip_ws (String c r) = String c r.
Proof. intros H. cbn [skip_ws]. now rewrite H. Qed.

Lemma join_cons2 (sep a b : string) (l : list string) :
  join sep (a :: b :: l) = a +:+ sep +:+ join sep (b :: l).
Proof. reflexivity. Qed.

Lemma parse_elements_join (l : list json) :
  Forall roundtrips l -> forallb serializable l = true ->
  forall (x : json) (acc : list json) (fuel : nat) (rest : string),
    roundtrips x -> serializable x = true ->
    (S (String.length (join "," (map JSON_stringify (x :: l)))) <= fuel)%nat ->
    value_end rest ->
    parse_elements fuel
      (join "," (map JSON_stringify (x :: l)) +:+ String "]"%char rest) acc
    = Ok (JArr (acc ++ x :: l)%list, rest).
Proof.
  induction l as [|y l IH]; intros HF Hs x acc fuel rest Hx Hsx Hfuel Hend.
  - cbn [map join] in *. destruct fuel as [|f]; [lia|].
    rewrite parse_elements_S.
    rewrite (Hx Hsx f (String "]"%char rest)); [reflexivity | lia |].
    right. now left.
  - change (map JSON_stringify (x :: y :: l))
      with (JSON_stringify x :: JSON_stringify y :: map JSON_stringify l) in *.
    rewrite join_cons2 in *.
    change (JSON_stringify y :: map JSON_stringify l)
      with (map JSON_stringify (y :: l)) in *.
    rewrite !length_app in Hfuel. cbn [String.length] in Hfuel.
    rewrite !app_assoc. cbn [String.append].
    destruct fuel as [|f]; [lia|].
    rewrite parse_elements_S.
    rewrite (Hx Hsx f); [| lia | now left].
    rewrite skip_ws_head by reflexivity.
    change (char_code "," =? 44)%N with true. cbv iota.
    apply Forall_cons in HF as [Hy HF].
    cbn [forallb] in Hs. apply andb_prop in Hs as [Hsy Hs].
    rewrite (IH HF Hs y (acc ++ [x])%list f rest Hy Hsy); [| lia | exact Hend].
    now rewrite <- List.app_assoc.
Qed.

Lemma existsb_eqb_sym (k : string) (l : list string) :
  existsb (String.eqb k) l = existsb (fun x => String.eqb x k) l.
Proof.
  induction l as [|x l IH]; [reflexivity|].
  cbn [existsb]. now rewrite IH, String.eqb_sym.
Qed.

Lemma distinct_middle (a b : list string) (k : string) :
  distinct (a ++ k :: b)%list = true -> existsb (String.eqb k) a = false.
Proof.
  induction a as [|x a IH]; [reflexivity|].
  cbn [List.app distinct existsb]. intros H.
  apply andb_prop in H as [H1 H2]. rewrite (IH H2), orb_false_r.
  apply negb_true_iff in H1. rewrite existsb_app in H1.
  apply orb_false_elim in H1 as [_ H1]. cbn [existsb] in H1.
  apply orb_false_elim in H1 as [H1 _]. now rewrite String.eqb_sym.
Qed.

Lemma obj_set_fresh (k : string) (v : json) (m : list (string * json)) :
  existsb (String.eqb k) (map fst m) = false ->
  obj_set k v m = (m ++ [(k, v)])%list.
Proof.
  induction m as [|[k' v'] m IH]; [reflexivity|].
  cbn [map fst existsb obj_set List.app]. intros H.
  apply orb_false_elim in H as [H1 H2]. now rewrite H1, (IH H2).
Qed.

Lemma parse_members_join (m : list (string * json)) :
  Forall (fun kv => roundtrips (snd kv)) m ->
  forallb (fun kv => serializable (snd kv)) m = true ->
  forall (kv : string * json) (acc : list (string * json)) (fuel : nat)
         (rest : string),
    roundtrips (snd kv) -> serializable (snd kv) = true ->
    distinct (map fst (acc ++ kv :: m)%list) = true ->
    (S (String.length
          (join ","
             (map (fun kv => quote (fst kv) +:+ ":" +:+ JSON_stringify (snd kv))
                (kv :: m)))) <= fuel)%nat ->
    value_end rest ->
    parse_members fuel
      (join ","
         (map (fun kv => quote (fst kv) +:+ ":" +:+ JSON_stringify (snd kv))
            (kv :: m)) +:+ String "}"%char rest) acc
    = Ok (JObj (acc ++ kv :: m)%list, rest).
Proof.
  induction m as [|kv' m IH];
    intros HF Hs [k v] acc fuel rest Hv Hsv Hd Hfuel Hend; cbn [fst snd] in *.
  - cbn [map join fst snd] in *. rewrite !length_app in Hfuel.
    cbn [String.length] in Hfuel.
    rewrite !app_assoc, quote_app. cbn [String.append].
    destruct fuel as [|f]; [lia|].
    rewrite parse_members_S, skip_ws_head by reflexivity.
    change (char_code "034" =? 34)%N with true. cbv iota.
    rewrite parse_escape, skip_ws_head by reflexivity.
    change (char_code ":" =? 58)%N with true. cbv iota.
    rewrite (Hv Hsv f); [| lia | right; now right].
    rewrite skip_ws_head by reflexivity.
    change (char_code "}" =? 44)%N with false.
    change (char_code "}" =? 125)%N with true. cbv iota.
    rewrite map_app in Hd. apply distinct_middle in Hd.
    now rewrite (obj_set_fresh k v acc Hd).
  - set (f0 := fun kv : string * json =>
                 quote (fst kv) +:+ ":" +:+ JSON_stringify (snd kv)) in *.
    change (map f0 ((k, v) :: kv' :: m))
      with (f0 (k, v) :: f0 kv' :: map f0 m) in *.
    rewrite join_cons2 in *.
    change (f0 kv' :: map f0 m) with (map f0 (kv' :: m)) in *.
    unfold f0 at 1. unfold f0 at 1 in Hfuel. cbn [fst snd] in *.
    rewrite !length_app in Hfuel. cbn [String.length] in Hfuel.
    rewrite !app_assoc, quote_app. cbn [String.append].
    destruct fuel as [|f]; [lia|].
    rewrite parse_members_S, skip_ws_head by reflexivity.
    change (char_code "034" =? 34)%N with true. cbv iota.
    rewrite parse_escape, skip_ws_head by reflexivity.
    change (char_code ":" =? 58)%N with true. cbv iota.
    rewrite (Hv Hsv f); [| lia | now left].
    rewrite skip_ws_head by reflexivity.
    change (char_code "," =? 44)%N with true. cbv iota.
    apply Forall_cons in HF as [Hv' HF].
    cbn [forallb] in Hs. apply andb_prop in Hs as [Hsv' Hs].
    pose proof Hd as Hd'. rewrite map_app in Hd'. apply distinct_middle in Hd'.
    rewrite (obj_set_fresh k v acc Hd').
    rewrite (IH HF Hs kv' (acc ++ [(k, v)])%list f rest Hv' Hsv');
      [now rewrite <- List.app_assoc | | lia | exact Hend].
    now rewrite <- List.app_assoc.
Qed.

(** *** The round trip *)

Lemma digit_or_minus_head (c : ascii) :
  ((char_code c =? 45)%N || is_digit c) = true ->
  is_json_ws c = false
  /\ (char_code c =? 93)%N = false /\ (char_code c =? 125)%N = false.
Proof.
  intros H.
  assert (Hc : (char_code c = 45 \/ 48 <= char_code c <= 57)%N).
  { apply orb_prop in H as [H|H].
    - left. now apply N.eqb_eq.
    - right. unfold is_digit in H. apply andb_prop in H as [H1 H2].
      apply N.leb_le in H1. apply N.leb_le in H2. lia. }
  unfold is_json_ws.
  repeat match goal with
         | |- context [(?a =? ?b)%N] => destruct (N.eqb_spec a b); [lia|]
         end.
  now repeat split.
Qed.

(** A serialized value starts with a character that is neither white
    space nor a closing bracket. *)
Lemma stringify_head (v : json) :
  exists c t,
    JSON_stringify v = String c t
    /\ is_json_ws c = false
    /\ (char_code c =? 93)%N = false /\ (char_code c =? 125)%N = false.
Proof.
  destruct v as [|[|]|z|s|l|m];
    try (eexists _, _; repeat split; reflexivity).
  destruct (stringify_Z_head z) as (c & t & E & Hc).
  exists c, t. split; [exact E | now apply digit_or_minus_head].
Qed.

Lemma open_bracket {T : Type} (s : string) (close : N)
    (a : string -> T) (b e : T) :
  (exists c t, s = String c t
               /\ is_json_ws c = false /\ (char_code c =? close)%N = false) ->
  match skip_ws s with
  | String c' r' => if (char_code c' =? close)%N then a r' else b
  | EmptyString => e
  end = b.
Proof.
  intros (c & t & -> & Hws & Hc). now rewrite skip_ws_head, Hc.
Qed.

Lemma join_head (sep : string) (x : string) (l : list string) (c : ascii)
    (t : string) :
  x = String c t -> exists t', join sep (x :: l) = String c t'.
Proof.
  intros ->. destruct l as [|y l]; [now exists t|].
  rewrite join_cons2. cbn [String.append]. now eexists.
Qed.

Theorem parse_stringify (v : json) : roundtrips v.
Proof.
  induction v as [|b|z|s|l HF|m HF] using json_ind_nested;
    intros Hs fuel rest Hfuel Hend.
  - destruct fuel as [|f]; [cbn in Hfuel; lia | reflexivity].
  - destruct fuel as [|f]; [destruct b; cbn in Hfuel; lia|].
    now destruct b.
  - destruct (stringify_Z_head z) as (c & t & E & Hc).
    cbn [JSON_stringify] in *.
    destruct fuel as [|f]; [rewrite E in Hfuel; cbn in Hfuel; lia|].
    rewrite E. cbn [String.append]. rewrite (parse_value_number f c _ Hc).
    change (String c (t +:+ rest)) with (String c t +:+ rest). rewrite <- E.
    apply parse_number_stringify; [|exact Hend].
    cbn [serializable] in Hs. apply Z.leb_le in Hs. exact Hs.
  - cbn [JSON_stringify] in *. rewrite quote_app.
    destruct fuel as [|f]; [cbn in Hfuel; lia|].
    rewrite parse_value_S, skip_ws_head by reflexivity.
    cbv zeta. change (char_code "034" =? 91)%N with false.
    change (char_code "034" =? 123)%N with false.
    change (char_code "034" =? 34)%N with true. cbv iota.
    now rewrite parse_escape.
  - cbn [JSON_stringify serializable] in *.
    rewrite !length_app in Hfuel. cbn [String.length] in Hfuel.
    rewrite !app_assoc. cbn [String.append].
    destruct fuel as [|f]; [lia|].
    rewrite parse_value_S, skip_ws_head by reflexivity.
    cbv zeta. change (char_code "[" =? 91)%N with true. cbv iota.
    destruct l as [|x l]; [reflexivity|].
    apply Forall_cons in HF as [Hx HF].
    cbn [forallb] in Hs. apply andb_prop in Hs as [Hsx Hs].
    rewrite open_bracket.
    + apply (parse_elements_join l HF Hs x [] f rest Hx Hsx); [lia | exact Hend].
    + destruct (stringify_head x) as (c & t & E & Hws & Hc & _).
      destruct (join_head "," _ (map JSON_stringify l) c t E) as (t' & E').
      change (map JSON_stringify (x :: l))
        with (JSON_stringify x :: map JSON_stringify l).
      rewrite E'. cbn [String.append]. now eexists _, _.
  - cbn [JSON_stringify serializable] in *.
    rewrite !length_app in Hfuel. cbn [String.length] in Hfuel.
    rewrite !app_assoc. cbn [String.append].
    destruct fuel as [|f]; [lia|].
    rewrite parse_value_S, skip_ws_head by reflexivity.
    cbv zeta. change (char_code "{" =? 91)%N with false.
    change (char_code "{" =? 123)%N with true. cbv iota.
    destruct m as [|kv m]; [reflexivity|].
    apply Forall_cons in HF as [Hx HF].
    apply andb_prop in Hs as [Hd Hs].
    cbn [forallb] in Hs. apply andb_prop in Hs as [Hsx Hs].
    rewrite open_bracket.
    + apply (parse_members_join m HF Hs kv [] f rest Hx Hsx);
        [exact Hd | lia | exact Hend].
    + set (f0 := fun kv : string * json =>
                   quote (fst kv) +:+ ":" +:+ JSON_stringify (snd kv)).
      change (exists c t,
                 join "," (f0 kv :: map f0 m) +:+ String "}"%char rest
                 = String c t
                 /\ is_json_ws c = false /\ (char_code c =? 125)%N = false).
      destruct (join_head "," (f0 kv) (map f0 m) "034"%char
                  (escape (fst kv)
                   +:+ String "034"%char (":" +:+ JSON_stringify (snd kv))))
        as (t' & E'); [unfold f0; now rewrite quote_app|].
      rewrite E'. cbn [String.append]. now eexists _, _.
Qed.

(** [JSON.parse(JSON.stringify(v))] is [v]. *)
Theorem JSON_parse_stringify (v : json) :
  serializable v = true -> JSON_parse (JSON_stringify v) = Ok v.
Proof.
  intros Hs. unfold JSON_parse.
  rewrite <- (app_nil_r (JSON_stringify v)) at 2.
  rewrite (parse_stringify v Hs); [reflexivity | lia | exact I].
Qed.

(** *** The parser consumes its input and never runs out of fuel *)

Lemma skip_ws_le (s : string) :
  (String.length (skip_ws s) <= String.length s)%nat.
Proof.
  induction s as [|c s IH]; [reflexivity|].
  cbn [skip_ws]. destruct (is_json_ws c); cbn [String.length]; lia.
Qed.

Lemma skip_ws_cons (s : string) (c : ascii) (r : string) :
  skip_ws s = String c r -> (S (String.length r) <= String.length s)%nat.
Proof.
  intros E. pose proof (skip_ws_le s) as H. rewrite E in H. exact H.
Qed.

Lemma prepend_Ok (p : string) (r : result (string * string))
    (t rest : string) :
  prepend p r = Ok (t, rest) -> exists t', r = Ok (t', rest).
Proof.
  destruct r as [[t' rest']|e]; [|discriminate].
  intros [= <- <-]. now exists t'.
Qed.

Lemma prepend_Throw (p : string) (r : result (string * string)) (e : exn) :
  prepend p r = Throw e -> r = Throw e.
Proof. destruct r as [[t' rest']|e']; [discriminate | now intros [= ->]]. Qed.

(** One unfolding of [parse_string_body] on a non-empty string leaves a
    recursive call on a strict suffix, or decides. *)
Lemma parse_string_body_step (c : ascii) (r : string) :
  parse_string_body (String c r) = Ok ("", r)
  \/ (exists e, is_ok (Throw (A := string * string) e) = false
               /\ e <> Exhausted
               /\ parse_string_body (String c r) = Throw e)
  \/ (exists p r',
        (String.length r' <= String.length r)%nat
        /\ parse_string_body (String c r) = prepend p (parse_string_body r')).
Proof.
  cbn [parse_string_body]. cbv zeta.
  destruct (char_code c =? 34)%N; [now left|].
  destruct (char_code c =? 92)%N.
  - destruct r as [|e r1]; [right; left; eexists; now repeat split|].
    repeat match goal with
           | |- context [if (char_code e =? ?k)%N then _ else _] =>
               destruct (char_code e =? k)%N;
               [right; right; eexists _, r1; split; [cbn; lia | reflexivity]|]
           end.
    destruct (char_code e =? 117)%N;
      [|right; left; eexists; now repeat split].
    destruct r1 as [|h1 [|h2 [|h3 [|h4 r2]]]];
      try (right; left; eexists; now repeat split).
    destruct (hex_val h1), (hex_val h2), (hex_val h3), (hex_val h4);
      try (right; left; eexists; now repeat split).
    destruct (utf8_encode _) as [u|x] eqn:Eu.
    + right; right. eexists u, r2. split; [cbn; lia | reflexivity].
    + right; left. exists x. repeat split.
      unfold utf8_encode in Eu.
      repeat match type of Eu with
             | (if ?b then _ else _) = _ => destruct b
             end; congruence.
  - destruct (char_code c <? 32)%N; [right; left; eexists; now repeat split|].
    right; right. eexists _, r. split; [lia | reflexivity].
Qed.

Lemma parse_string_body_shorter (s t rest : string) :
  parse_string_body s = Ok (t, rest) ->
  (String.length rest < String.length s)%nat.
Proof.
  assert (Hle : (String.length s <= String.length s)%nat) by lia.
  revert Hle. generalize (String.length s) at 2 as n. intros n.
  revert s t rest.
  induction n as [|n IH]; intros s t rest Hle H;
    (destruct s as [|c r]; [discriminate|]); cbn [String.length] in *; [lia|].
  destruct (parse_string_body_step c r)
    as [E | [(e & _ & _ & E) | (p & r' & Hr & E)]]; rewrite E in H.
  - injection H as <- <-. lia.
  - discriminate.
  - apply prepend_Ok in H as (t' & H).
    assert (String.length rest < String.length r')%nat
      by (apply (IH r' t'); [lia | exact H]).
    lia.
Qed.

Lemma parse_string_body_not_exhausted (s : string) :
  parse_string_body s <> Throw Exhausted.
Proof.
  assert (Hle : (String.length s <= String.length s)%nat) by lia.
  revert Hle. generalize (String.length s) at 2 as n. intros n.
  revert s.
  induction n as [|n IH]; intros s Hle;
    (destruct s as [|c r]; [discriminate|]); cbn [String.length] in *; [lia|].
  destruct (parse_string_body_step c r)
    as [E | [(e & _ & He & E) | (p & r' & Hr & E)]]; rewrite E.
  - discriminate.
  - congruence.
  - intros H. apply prepend_Throw in H. apply (IH r'); [lia | exact H].
Qed.

Lemma span_digits_length (s : string) :
  String.length s
  = (String.length (fst (span_digits s)) + String.length (snd (span_digits s)))%nat.
Proof.
  induction s as [|c s IH]; [reflexivity|].
  cbn [span_digits]. destruct (is_digit c); [|reflexivity].
  destruct (span_digits s) as [d rest]. cbn [fst snd String.length] in *. lia.
Qed.

Lemma parse_number_shorter (s : string) (v : json) (rest : string) :
  parse_number s = Ok (v, rest) ->
  (String.length rest < String.length s)%nat.
Proof.
  unfold parse_number. intros H.
  set (s1 := snd (match s with
                  | String c r => if (char_code c =? 45)%N then (true, r) else (false, s)
                  | EmptyString => (false, s)
                  end)).
  assert (Hs1 : (String.length s1 <= String.length s)%nat).
  { unfold s1. destruct s as [|c r]; [reflexivity|].
    destruct (char_code c =? 45)%N; cbn; lia. }
  destruct (match s with
            | String c r => if (char_code c =? 45)%N then (true, r) else (false, s)
            | EmptyString => (false, s)
            end) as [neg s1'] eqn:E.
  subst s1. cbn [snd] in Hs1.
  pose proof (span_digits_length s1') as Hlen.
  destruct (span_digits s1') as [ds rest'].
  cbn [fst snd] in Hlen.
  destruct ds as [|c0 ds']; [discriminate|].
  repeat match type of H with
         | (if ?b then _ else _) = _ => destruct b; [discriminate|]
         | (let _ := _ in _) = _ => cbv zeta in H
         end.
  destruct (NilZero.uint_of_string _); [|discriminate].
  repeat match type of H with
         | (if ?b then _ else _) = _ => destruct b; [discriminate|]
         | (let _ := _ in _) = _ => cbv zeta in H
         end.
  injection H as _ <-. cbn [String.length] in Hlen. lia.
Qed.

Lemma parse_number_not_exhausted (s : string) :
  parse_number s <> Throw Exhausted.
Proof.
  unfold parse_number.
  destruct (match s with
            | String c r => if (char_code c =? 45)%N then (true, r) else (false, s)
            | EmptyString => (false, s)
            end) as [neg s1].
  destruct (span_digits s1) as [ds rest].
  destruct ds as [|c0 ds']; [discriminate|].
  cbv zeta.
  repeat match goal with
         | |- (if ?b then _ else _) <> _ => destruct b; [discriminate|]
         end.
  destruct (NilZero.uint_of_string _); [|discriminate].
  repeat match goal with
         | |- (if ?b then _ else _) <> _ => destruct b; try discriminate
         end.
Qed.

Lemma strip_prefix_length (p s r : string) :
  strip_prefix p s = Some r ->
  String.length s = (String.length p + String.length r)%nat.
Proof.
  revert s. induction p as [|a p IH]; intros s H.
  - now injection H as ->.
  - destruct s as [|b s]; [discriminate|]. cbn [strip_prefix] in H.
    destruct (Ascii.eqb a b); [|discriminate].
    cbn [String.length]. now rewrite (IH s H).
Qed.

Lemma parse_literal_shorter (s : string) (v : json) (rest : string) :
  parse_literal s = Ok (v, rest) ->
  (String.length rest < String.length s)%nat.
Proof.
  unfold parse_literal. intros H.
  destruct (strip_prefix "null" s) as [r|] eqn:E1.
  { injection H as _ <-. apply strip_prefix_length in E1. cbn in E1. lia. }
  destruct (strip_prefix "true" s) as [r|] eqn:E2.
  { injection H as _ <-. apply strip_prefix_length in E2. cbn in E2. lia. }
  destruct (strip_prefix "false" s) as [r|] eqn:E3; [|discriminate].
  injection H as _ <-. apply strip_prefix_length in E3. cbn in E3. lia.
Qed.

Lemma parse_literal_not_exhausted (s : string) :
  parse_literal s <> Throw Exhausted.
Proof.
  unfold parse_literal.
  destruct (strip_prefix "null" s); [discriminate|].
  destruct (strip_prefix "true" s); [discriminate|].
  destruct (strip_prefix "false" s); discriminate.
Qed.

Lemma parse_shorter (fuel : nat) :
  (forall s v rest,
      parse_value fuel s = Ok (v, rest) ->
      (String.length rest < String.length s)%nat)
  /\ (forall s acc v rest,
        parse_elements fuel s acc = Ok (v, rest) ->
        (String.length rest < String.length s)%nat)
  /\ (forall s acc v rest,
        parse_members fuel s acc = Ok (v, rest) ->
        (String.length rest < String.length s)%nat).
Proof.
  induction fuel as [|f (IHv & IHe & IHm)]; [repeat split; discriminate|].
  repeat split.
  - intros s v rest H. rewrite parse_value_S in H.
    destruct (skip_ws s) as [|c r] eqn:E; [discriminate|].
    apply skip_ws_cons in E. cbv zeta in H.
    destruct (char_code c =? 91)%N.
    { destruct (skip_ws r) as [|c' r'] eqn:E'; [discriminate|].
      apply skip_ws_cons in E'.
      destruct (char_code c' =? 93)%N.
      - injection H as _ <-. lia.
      - apply IHe in H. lia. }
    destruct (char_code c =? 123)%N.
    { destruct (skip_ws r) as [|c' r'] eqn:E'; [discriminate|].
      apply skip_ws_cons in E'.
      destruct (char_code c' =? 125)%N.
      - injection H as _ <-. lia.
      - apply IHm in H. lia. }
    destruct (char_code c =? 34)%N.
    { destruct (parse_string_body r) as [[t r']|] eqn:Eb; [|discriminate].
      injection H as _ <-. apply parse_string_body_shorter in Eb. lia. }
    destruct ((char_code c =? 45)%N || is_digit c).
    + apply parse_number_shorter in H. cbn [String.length] in H. lia.
    + apply parse_literal_shorter in H. cbn [String.length] in H. lia.
  - intros s acc v rest H. rewrite parse_elements_S in H.
    destruct (parse_value f s) as [[v0 r0]|] eqn:Ev; [|discriminate].
    apply IHv in Ev.
    destruct (skip_ws r0) as [|c r] eqn:E; [discriminate|].
    apply skip_ws_cons in E.
    destruct (char_code c =? 44)%N; [apply IHe in H; lia|].
    destruct (char_code c =? 93)%N; [|discriminate].
    injection H as _ <-. lia.
  - intros s acc v rest H. rewrite parse_members_S in H.
    destruct (skip_ws s) as [|q r] eqn:E; [discriminate|].
    apply skip_ws_cons in E.
    destruct (char_code q =? 34)%N; [|discriminate].
    destruct (parse_string_body r) as [[k r1]|] eqn:Eb; [|discriminate].
    apply parse_string_body_shorter in Eb.
    destruct (skip_ws r1) as [|c r2] eqn:E1; [discriminate|].
    apply skip_ws_cons in E1.
    destruct (char_code c =? 58)%N; [|discriminate].
    destruct (parse_value f r2) as [[v0 r3]|] eqn:Ev; [|discriminate].
    apply IHv in Ev.
    destruct (skip_ws r3) as [|c' r4] eqn:E3; [discriminate|].
    apply skip_ws_cons in E3.
    destruct (char_code c' =? 44)%N; [apply IHm in H; lia|].
    destruct (char_code c' =? 125)%N; [|discriminate].
    injection H as _ <-. lia.
Qed.

Lemma parse_not_exhausted (fuel : nat) :
  (forall s,
      (2 * String.length s + 1 <= fuel)%nat ->
      parse_value fuel s <> Throw Exhausted)
  /\ (forall s acc,
        (2 * String.length s + 2 <= fuel)%nat ->
        parse_elements fuel s acc <> Throw Exhausted)
  /\ (forall s acc,
        (2 * String.length s + 2 <= fuel)%nat ->
        parse_members fuel s acc <> Throw Exhausted).
Proof.
  induction fuel as [|f (IHv & IHe & IHm)]; [repeat split; intros; lia|].
  destruct (parse_shorter f) as (Sv & _ & _).
  repeat split.
  - intros s Hf. rewrite parse_value_S.
    destruct (skip_ws s) as [|c r] eqn:E; [discriminate|].
    apply skip_ws_cons in E. cbv zeta.
    destruct (char_code c =? 91)%N.
    { destruct (skip_ws r) as [|c' r'] eqn:E'; [discriminate|].
      destruct (char_code c' =? 93)%N; [discriminate|]. apply IHe. lia. }
    destruct (char_code c =? 123)%N.
    { destruct (skip_ws r) as [|c' r'] eqn:E'; [discriminate|].
      destruct (char_code c' =? 125)%N; [discriminate|]. apply IHm. lia. }
    destruct (char_code c =? 34)%N.
    { pose proof (parse_string_body_not_exhausted r) as Hb.
      destruct (parse_string_body r) as [[t r']|]; [discriminate | congruence]. }
    destruct ((char_code c =? 45)%N || is_digit c).
    + apply parse_number_not_exhausted.
    + apply parse_literal_not_exhausted.
  - intros s acc Hf. rewrite parse_elements_S.
    pose proof (IHv s) as Hv.
    destruct (parse_value f s) as [[v0 r0]|e] eqn:Ev; [|apply Hv; lia].
    apply Sv in Ev.
    destruct (skip_ws r0) as [|c r] eqn:E; [discriminate|].
    apply skip_ws_cons in E.
    destruct (char_code c =? 44)%N; [apply IHe; lia|].
    destruct (char_code c =? 93)%N; discriminate.
  - intros s acc Hf. rewrite parse_members_S.
    destruct (skip_ws s) as [|q r] eqn:E; [discriminate|].
    apply skip_ws_cons in E.
    destruct (char_code q =? 34)%N; [|discriminate].
    pose proof (parse_string_body_not_exhausted r) as Hb.
    destruct (parse_string_body r) as [[k r1]|] eqn:Eb; [|congruence].
    apply parse_string_body_shorter in Eb.
    destruct (skip_ws r1) as [|c r2] eqn:E1; [discriminate|].
    apply skip_ws_cons in E1.
    destruct (char_code c =? 58)%N; [|discriminate].
    pose proof (IHv r2) as Hv.
    destruct (parse_value f r2) as [[v0 r3]|e] eqn:Ev; [|apply Hv; lia].
    apply Sv in Ev.
    destruct (skip_ws r3) as [|c' r4] eqn:E3; [discriminate|].
    apply skip_ws_cons in E3.
    destruct (char_code c' =? 44)%N; [apply IHm; lia|].
    destruct (char_code c' =? 125)%N; discriminate.
Qed.

(** [JSON_parse] gives every text enough fuel. *)
Theorem JSON_parse_not_exhausted (s : string) : JSON_parse s <> Throw Exhausted.
Proof.
  unfold JSON_parse.
  destruct (parse_not_exhausted (2 * String.length s + 2)) as (Hv & _ & _).
  specialize (Hv s ltac:(lia)).
  destruct (parse_value _ s) as [[v rest]|e]; [|congruence].
  destruct (skip_ws rest); discriminate.
Qed.

(** *** Assignments to properties *)

Lemma obj_get_set (k k' : string) (v : json) (m : list (string * json)) :
  obj_get k (obj_set k' v m)
  = if String.eqb k k' then Some v else obj_get k m.
Proof.
  induction m as [|[k0 v0] m IH]; cbn [obj_set obj_get].
  - now destruct (String.eqb k k').
  - destruct (String.eqb_spec k' k0) as [->|Hne]; cbn [obj_get].
    + now destruct (String.eqb k k0).
    + rewrite IH. destruct (String.eqb_spec k k0) as [->|]; [|reflexivity].
      destruct (String.eqb_spec k0 k'); [congruence | reflexivity].
Qed.

Lemma existsb_obj_set (k k' : string) (v : json) (m : list (string * json)) :
  existsb (String.eqb k) (map fst (obj_set k' v m))
  = String.eqb k k' || existsb (String.eqb k) (map fst m).
Proof.
  induction m as [|[k0 v0] m IH]; cbn [obj_set map fst existsb].
  - reflexivity.
  - destruct (String.eqb_spec k' k0) as [->|Hne]; cbn [map fst existsb].
    + now destruct (String.eqb k k0).
    + rewrite IH. now destruct (String.eqb k k0), (String.eqb k k').
Qed.

(** An assignment never makes two properties of one name. *)
Lemma distinct_obj_set (k : string) (v : json) (m : list (string * json)) :
  distinct (map fst m) = true -> distinct (map fst (obj_set k v m)) = true.
Proof.
  induction m as [|[k0 v0] m IH]; [reflexivity|].
  cbn [obj_set map fst distinct]. intros H.
  apply andb_prop in H as [H1 H2].
  destruct (String.eqb_spec k k0) as [->|Hne]; cbn [map fst distinct].
  - now rewrite H1, H2.
  - rewrite existsb_obj_set, (IH H2), andb_true_r.
    apply negb_true_iff in H1. rewrite H1, orb_false_r.
    apply negb_true_iff. destruct (String.eqb_spec k0 k); congruence.
Qed.

Lemma forallb_obj_set (k : string) (v : json) (m : list (string * json)) :
  serializable v = true ->
  forallb (fun kv => serializable (snd kv)) m = true ->
  forallb (fun kv => serializable (snd kv)) (obj_set k v m) = true.
Proof.
  intros Hv. induction m as [|[k0 v0] m IH]; cbn [obj_set forallb snd].
  - now rewrite Hv.
  - intros H. apply andb_prop in H as [H1 H2].
    destruct (String.eqb k k0); cbn [forallb snd].
    + now rewrite Hv, H2.
    + now rewrite H1, (IH H2).
Qed.

(** *** What the parser returns can be serialized back *)

Lemma parse_number_serializable (s : string) (v : json) (rest : string) :
  parse_number s = Ok (v, rest) -> serializable v = true.
Proof.
  unfold parse_number.
  destruct (match s with
            | String c r => if (char_code c =? 45)%N then (true, r) else (false, s)
            | EmptyString => (false, s)
            end) as [neg s1].
  destruct (span_digits s1) as [ds rest'].
  destruct ds as [|c0 ds']; [discriminate|]. cbv zeta.
  destruct (_ && _); [discriminate|].
  destruct (match rest' with String _ _ => _ | EmptyString => _ end);
    [discriminate|].
  destruct (NilZero.uint_of_string _) as [d|]; [|discriminate].
  destruct (N.ltb_spec max_safe_integer (N.of_uint d)) as [|Hle]; [discriminate|].
  intros [= <- _]. cbn [serializable]. apply Z.leb_le.
  unfold max_safe_integer in Hle. destruct neg; lia.
Qed.

Lemma parse_literal_serializable (s : string) (v : json) (rest : string) :
  parse_literal s = Ok (v, rest) -> serializable v = true.
Proof.
  unfold parse_literal.
  destruct (strip_prefix "null" s); [now intros [= <- _]|].
  destruct (strip_prefix "true" s); [now intros [= <- _]|].
  destruct (strip_prefix "false" s); [now intros [= <- _] | discriminate].
Qed.

Lemma parse_serializable (fuel : nat) :
  (forall s v rest,
      parse_value fuel s = Ok (v, rest) -> serializable v = true)
  /\ (forall s acc v rest,
        forallb serializable acc = true ->
        parse_elements fuel s acc = Ok (v, rest) -> serializable v = true)
  /\ (forall s acc v rest,
        distinct (map fst acc) = true ->
        forallb (fun kv => serializable (snd kv)) acc = true ->
        parse_members fuel s acc = Ok (v, rest) -> serializable v = true).
Proof.
  induction fuel as [|f (IHv & IHe & IHm)]; [repeat split; discriminate|].
  repeat split.
  - intros s v rest H. rewrite parse_value_S in H.
    destruct (skip_ws s) as [|c r]; [discriminate|]. cbv zeta in H.
    destruct (char_code c =? 91)%N.
    { destruct (skip_ws r) as [|c' r']; [discriminate|].
      destruct (char_code c' =? 93)%N; [now injection H as <- _|].
      now apply IHe in H. }
    destruct (char_code c =? 123)%N.
    { destruct (skip_ws r) as [|c' r']; [discriminate|].
      destruct (char_code c' =? 125)%N; [now injection H as <- _|].
      now apply IHm in H. }
    destruct (char_code c =? 34)%N.
    { destruct (parse_string_body r) as [[t r']|]; [|discriminate].
      now injection H as <- _. }
    destruct ((char_code c =? 45)%N || is_digit c).
    + now apply parse_number_serializable in H.
    + now apply parse_literal_serializable in H.
  - intros s acc v rest Hacc H. rewrite parse_elements_S in H.
    destruct (parse_value f s) as [[v0 r0]|] eqn:Ev; [|discriminate].
    apply IHv in Ev.
    assert (Hacc' : forallb serializable (acc ++ [v0])%list = true).
    { rewrite forallb_app, Hacc. cbn. now rewrite Ev. }
    destruct (skip_ws r0) as [|c r]; [discriminate|].
    destruct (char_code c =? 44)%N; [now apply IHe in H|].
    destruct (char_code c =? 93)%N; [|discriminate].
    now injection H as <- _.
  - intros s acc v rest Hd Hacc H. rewrite parse_members_S in H.
    destruct (skip_ws s) as [|q r]; [discriminate|].
    destruct (char_code q =? 34)%N; [|discriminate].
    destruct (parse_string_body r) as [[k r1]|]; [|discriminate].
    destruct (skip_ws r1) as [|c r2]; [discriminate|].
    destruct (char_code c =? 58)%N; [|discriminate].
    destruct (parse_value f r2) as [[v0 r3]|] eqn:Ev; [|discriminate].
    apply IHv in Ev.
    pose proof (distinct_obj_set k v0 acc Hd) as Hd'.
    pose proof (forallb_obj_set k v0 acc Ev Hacc) as Hacc'.
    destruct (skip_ws r3) as [|c' r4]; [discriminate|].
    destruct (char_code c' =? 44)%N; [now apply IHm in H|].
    destruct (char_code c' =? 125)%N; [|discriminate].
    injection H as <- _. cbn [serializable]. now rewrite Hd', Hacc'.
Qed.

Theorem JSON_parse_serializable (s : string) (v : json) :
  JSON_parse s = Ok v -> serializable v = true.
Proof.
  unfold JSON_parse.
  destruct (parse_value _ s) as [[v' rest]|e] eqn:E; [|discriminate].
  destruct (skip_ws rest); [|discriminate].
  intros [= <-]. destruct (parse_serializable (2 * String.length s + 2))
    as (Hv & _ & _). exact (Hv s v' rest E).
Qed.

End JsonFacts.

(* ===================================================================== *)
(** ** The persistent log store *)
(* ===================================================================== *)

Module Store.

Import JsonFacts.

(** *** What [addLogEntry] changes *)

Lemma logEntries_addLogEntry (ts title : string) (obj : json) (s : state) :
  logEntries (addLogEntry ts title obj s)
  = (logEntries s ++ [entry_of (label_of ts title) obj])%list.
Proof. reflexivity. Qed.

Lemma localStorage_addLogEntry (ts title : string) (obj : json) (s : state) :
  localStorage (addLogEntry ts title obj s) !! LOGS
  = Some (JSON_stringify (JArr (logEntries (addLogEntry ts title obj s)))).
Proof. cbn. apply lookup_insert_eq. Qed.

Lemma sidebar_addLogEntry (ts title : string) (obj : json) (s : state) :
  sidebar (addLogEntry ts title obj s)
  = {| textContent := Some (JStr (label_of ts title));
       onclick_obj := Some obj |} :: sidebar s.
Proof. reflexivity. Qed.

Lemma logEntries_log_all (evs : list logged) (s : state) :
  logEntries (log_all evs s)
  = (logEntries s ++ map entry_of_logged evs)%list.
Proof.
  revert s. induction evs as [|e evs IH]; intros s.
  - cbn. now rewrite List.app_nil_r.
  - cbn [log_all fold_left map]. fold (log_all evs).
    rewrite IH, logEntries_addLogEntry, <- List.app_assoc. reflexivity.
Qed.

Lemma localStorage_log_all (evs : list logged) (s : state) :
  evs <> [] ->
  localStorage (log_all evs s) !! LOGS
  = Some (JSON_stringify (JArr (logEntries (log_all evs s)))).
Proof.
  revert s. induction evs as [|e evs IH]; intros s Hne; [congruence|].
  cbn [log_all fold_left]. fold (log_all evs).
  destruct evs as [|e' evs].
  - apply localStorage_addLogEntry.
  - apply IH. discriminate.
Qed.

(** *** What [load] gives back *)

Lemma load_absent (st : gmap string string) :
  st !! LOGS = None -> load st = Ok (JArr []).
Proof. intros H. unfold load. now rewrite H. Qed.

Lemma load_empty_string (st : gmap string string) :
  st !! LOGS = Some "" -> load st = Ok (JArr []).
Proof. intros H. unfold load. now rewrite H. Qed.

Lemma load_stored (st : gmap string string) (l : list json) :
  st !! LOGS = Some (JSON_stringify (JArr l)) ->
  forallb serializable l = true ->
  load st = Ok (JArr l).
Proof.
  intros H Hs. unfold load. rewrite H.
  change (JSON_stringify (JArr l) =? "")%string with false. cbv iota.
  now apply JSON_parse_stringify.
Qed.

Lemma serializable_entry_of (label : string) (obj : json) :
  serializable (entry_of label obj) = serializable obj.
Proof. cbn. now rewrite andb_true_r. Qed.

Lemma serializable_logged (evs : list logged) :
  forallb (fun e => serializable (payload e)) evs = true ->
  forallb serializable (map entry_of_logged evs) = true.
Proof.
  induction evs as [|e evs IH]; [reflexivity|].
  cbn [forallb map]. intros H. apply andb_prop in H as [H1 H2].
  unfold entry_of_logged at 1. now rewrite serializable_entry_of, H1, IH.
Qed.

(** *** Initialization, step by step *)

Lemma forEach_restore_entry (l : list json) (s : state) :
  Forall (fun e => e <> JNull) l ->
  forEach restore_entry l s
  = (Ok (), set_sidebar (sidebar s ++ map restored_item l)%list s).
Proof.
  revert s. induction l as [|e l IH]; intros s HF.
  - cbn. rewrite List.app_nil_r. now destruct s.
  - apply Forall_cons in HF as [He HF].
    cbn [forEach]. unfold mbind, M_bind.
    assert (E : restore_entry e s
                = (Ok (), set_sidebar (sidebar s ++ [restored_item e])%list s)).
    { destruct e; try congruence; reflexivity. }
    rewrite E, (IH _ HF). cbn. now rewrite <- List.app_assoc.
Qed.

Lemma static_captures_ok (p : page) (cookies : list (string * json)) (s : state) :
  cookies_of (cookie p) = Ok cookies ->
  static_captures p s
  = (Ok (),
     addLogEntry (clock p 2) "[PAGE]" (JObj [("pathname", JStr (pathname p))])
       (addLogEntry (clock p 1) "[COOKIES]" (JObj cookies)
          (addLogEntry (clock p 0) "[SESSION]" (session_of (globals p)) s))).
Proof.
  intros H. unfold static_captures, mbind, M_bind, modify, lift.
  now rewrite H.
Qed.

Lemma static_captures_throws (p : page) (e : exn) (s : state) :
  cookies_of (cookie p) = Throw e ->
  static_captures p s
  = (Throw e, addLogEntry (clock p 0) "[SESSION]" (session_of (globals p)) s).
Proof.
  intros H. unfold static_captures, mbind, M_bind, modify, lift.
  now rewrite H.
Qed.

(** On a page whose stored value parses to an array of entries and whose
    cookies decode, initialization completes and appends the three static
    entries to the restored ones, in memory and in the store. *)
Lemma init_appends_three (p : page) (l : list json)
    (cookies : list (string * json)) :
  load (storage p) = Ok (JArr l) ->
  Forall (fun e => e <> JNull) l ->
  cookies_of (cookie p) = Ok cookies ->
  exists s',
    init p (boot p) = (Ok (), s')
    /\ logEntries s' = (l ++ static_entries p cookies)%list
    /\ localStorage s' !! LOGS
       = Some (JSON_stringify (JArr (l ++ static_entries p cookies)%list))
    /\ length (logEntries s') = (length l + 3)%nat.
Proof.
  intros Hload Hl Hc. eexists. split.
  - unfold init, restore_log, mbind, M_bind, lift. rewrite Hload.
    cbn [restore]. unfold mbind, M_bind, modify.
    rewrite (forEach_restore_entry l _ Hl), (static_captures_ok p cookies _ Hc).
    reflexivity.
  - rewrite !logEntries_addLogEntry, <- !List.app_assoc. cbn [List.app].
    split; [reflexivity|]. split.
    + rewrite localStorage_addLogEntry, !logEntries_addLogEntry.
      rewrite <- !List.app_assoc. reflexivity.
    + rewrite List.length_app. reflexivity.
Qed.

(** The guard of lines 25-26: a window that is already marked runs
    nothing, any other runs the initialization from the fresh
    variables. *)
Lemma script_guard (p : page) :
  (loaded p = true -> script p = None)
  /\ (loaded p = false -> script p = Some (init p (boot p))).
Proof. unfold script. split; now intros ->. Qed.

(** *** When initialization runs to its end *)

Lemma forEach_restore_entry_inv (l : list json) (s s' : state) :
  forEach restore_entry l s = (Ok (), s') -> Forall (fun e => e <> JNull) l.
Proof.
  revert s. induction l as [|e l IH]; intros s H; [constructor|].
  cbn [forEach] in H. unfold mbind, M_bind in H.
  destruct (restore_entry e s) as [[[]|x] s1] eqn:E; [|discriminate].
  constructor; [|exact (IH _ H)].
  intros ->. discriminate.
Qed.

Lemma init_returns_inv (p : page) (s : state) :
  init p (boot p) = (Ok (), s) ->
  exists l cookies,
    load (storage p) = Ok (JArr l)
    /\ Forall (fun e => e <> JNull) l
    /\ cookies_of (cookie p) = Ok cookies.
Proof.
  unfold init, restore_log, mbind, M_bind, lift. intros H.
  destruct (load (storage p)) as [v|e]; [|discriminate].
  destruct v as [| | | |l|]; cbn [restore] in H; try discriminate.
  unfold mbind, M_bind, modify in H.
  destruct (forEach restore_entry l _) as [[[]|x] s1] eqn:E; [|discriminate].
  apply forEach_restore_entry_inv in E.
  destruct (cookies_of (cookie p)) as [cookies|x] eqn:Ec.
  - now exists l, cookies.
  - rewrite (static_captures_throws p x _ Ec) in H. discriminate.
Qed.

Lemma load_serializable (st : gmap string string) (l : list json) :
  load st = Ok (JArr l) -> forallb serializable l = true.
Proof. intros H. apply JSON_parse_serializable in H. exact H. Qed.

Lemma reduce_cookie_step_serializable (l : list string)
    (acc m : list (string * json)) :
  serializable (JObj acc) = true ->
  reduce cookie_step l acc = Ok m -> serializable (JObj m) = true.
Proof.
  revert acc. induction l as [|c l IH]; intros acc Hacc H.
  - cbn in H. now injection H as <-.
  - cbn [reduce] in H. unfold mbind, result_bind, Js.bind in H.
    destruct (cookie_step acc c) as [acc'|] eqn:E; [|discriminate].
    apply (IH acc'); [|exact H].
    unfold cookie_step in E.
    destruct (split "=" c) as [|k [|v t]]; try (now injection E as <-).
    destruct (_ && _); [|now injection E as <-].
    unfold mbind, result_bind, Js.bind in E.
    destruct (decodeURIComponent v) as [d|]; [|discriminate].
    injection E as <-. cbn [serializable] in *.
    apply andb_prop in Hacc as [H1 H2].
    now rewrite (distinct_obj_set _ _ _ H1), forallb_obj_set.
Qed.

Lemma cookies_of_serializable (document_cookie : string)
    (m : list (string * json)) :
  cookies_of document_cookie = Ok m -> serializable (JObj m) = true.
Proof. now apply reduce_cookie_step_serializable. Qed.

(** A page load that follows a completed one: the stored sequence is
    read back whole and three entries are added to it. *)
Lemma next_load_grows_by_three (p p' : page) (s : state)
    (cookies' : list (string * json)) :
  init p (boot p) = (Ok (), s) ->
  serializable (session_of (globals p)) = true ->
  storage p' = localStorage s ->
  cookies_of (cookie p') = Ok cookies' ->
  exists s',
    init p' (boot p') = (Ok (), s')
    /\ logEntries s' = (logEntries s ++ static_entries p' cookies')%list
    /\ length (logEntries s') = (length (logEntries s) + 3)%nat.
Proof.
  intros Hinit Hsess Hst Hc'.
  destruct (init_returns_inv p s Hinit) as (l & cookies & Hl & Hnn & Hc).
  destruct (init_appends_three p l cookies Hl Hnn Hc)
    as (s0 & E0 & Hmem & Hstore & _).
  rewrite Hinit in E0. injection E0 as <-.
  assert (Hload : load (storage p') = Ok (JArr (logEntries s))).
  { apply load_stored; [rewrite Hst, Hmem; exact Hstore|].
    rewrite Hmem, forallb_app, (load_serializable _ _ Hl). cbn [andb].
    cbn [static_entries forallb]. rewrite !serializable_entry_of, Hsess.
    rewrite (cookies_of_serializable _ _ Hc). reflexivity. }
  assert (Hnn' : Forall (fun e => e <> JNull) (logEntries s)).
  { rewrite Hmem. apply Forall_app. split; [exact Hnn|].
    repeat constructor; discriminate. }
  destruct (init_appends_three p' _ cookies' Hload Hnn' Hc')
    as (s' & E' & Hmem' & _ & Hlen').
  exists s'. now repeat split.
Qed.

(** *** The load at initialization *)

(** C1.  The load of line 117 gives the empty sequence when the key is
    absent or holds the empty string, but on a malformed value
    [JSON.parse] throws a [SyntaxError] that nothing catches: the load
    raises and the script stops there, before any listener is installed.
    A well-formed value that is no array is returned as it is and the
    script stops at [forEach]. *)
Theorem load_throws_on_malformed :
  load ∅ = Ok (JArr [])
  /\ load {[ LOGS := "" ]} = Ok (JArr [])
  /\ load truncated_log = Throw SyntaxError
  /\ init (with_storage truncated_log blank_page)
          (boot (with_storage truncated_log blank_page))
     = (Throw SyntaxError, boot (with_storage truncated_log blank_page))
  /\ load {[ LOGS := "{}" ]} = Ok (JObj [])
  /\ fst (init (with_storage {[ LOGS := "{}" ]} blank_page)
             (boot (with_storage {[ LOGS := "{}" ]} blank_page)))
     = Throw TypeError.
Proof. repeat split; vm_compute; reflexivity. Qed.

(** *** Clearing *)

(** [DevBox.clear] empties the memory, the store and both panes. *)
Lemma clear_empties (s : state) :
  logEntries (clear s) = []
  /\ localStorage (clear s) !! LOGS = None
  /\ sidebar (clear s) = []
  /\ mainView (clear s) = "".
Proof. repeat split. cbn. apply lookup_delete_eq. Qed.

(** C2.  The Clear Logs button removes the key and empties both panes,
    but it leaves [logEntries] as it was (the line [logEntries = []] of
    [DevBox.clear] is missing from it), so the next entry logged writes
    every cleared entry back to the store.  After an initialization on a
    blank page the three static entries stay in memory. *)
Theorem clearBtn_onclick_keeps_logEntries :
  (forall s : state,
      localStorage (clearBtn_onclick s) !! LOGS = None
      /\ sidebar (clearBtn_onclick s) = []
      /\ mainView (clearBtn_onclick s) = ""
      /\ logEntries (clearBtn_onclick s) = logEntries s
      /\ forall (ts title : string) (obj : json),
           localStorage (addLogEntry ts title obj (clearBtn_onclick s)) !! LOGS
           = Some (JSON_stringify
                     (JArr (logEntries s ++ [entry_of (label_of ts title) obj])%list)))
  /\ length (logEntries (clearBtn_onclick (exec (init blank_page) (boot blank_page))))
     = 3%nat
  /\ length (logEntries (clear (exec (init blank_page) (boot blank_page))))
     = 0%nat.
Proof.
  split; [|split; reflexivity].
  intros s. repeat split.
  - cbn. apply lookup_delete_eq.
  - intros ts title obj. apply localStorage_addLogEntry.
Qed.

(** *** Reload *)

Lemma restore_log_stored (p : page) (l : list json) :
  load (storage p) = Ok (JArr l) ->
  Forall (fun e => e <> JNull) l ->
  restore_log p (boot p)
  = (Ok (), set_sidebar (map restored_item l) (set_logEntries l (boot p))).
Proof.
  intros Hl Hnn. unfold restore_log, mbind, M_bind, lift. rewrite Hl.
  cbn [restore]. unfold mbind, M_bind, modify.
  now rewrite (forEach_restore_entry l _ Hnn).
Qed.



(** *** The static captures of a page load *)

(** C10.  On a page whose cookie string holds a bare percent sign the
    initialization logs [SESSION], then [decodeURIComponent] throws a
    [URIError] inside the cookie capture and the script stops: one entry
    is appended, in memory and in the store, not three. *)
Theorem init_stops_after_session :
  fst (init percent_page (boot percent_page)) = Throw URIError
  /\ logEntries (exec (init percent_page) (boot percent_page))
     = [entry_of "[12:00:00] [SESSION]" (JObj [])]
  /\ load (localStorage (exec (init percent_page) (boot percent_page)))
     = Ok (JArr [entry_of "[12:00:00] [SESSION]" (JObj [])]).
Proof. repeat split; vm_compute; reflexivity. Qed.

End Store.

(* ===================================================================== *)
(** ** The interceptors and the static captures *)
(* ===================================================================== *)

Module Interceptors.

Import JsonFacts.




(** *** The submit listener *)



(** *** The fetch wrapper *)




(** The request of the specification: POST to [/api/x] with the body
    [{"q":1}], answered with the text [ok]. *)
Example fetch_post_example :
  let opts := Some {| method := Some "POST";
                      body := Some (BodyString
                                      (JSON_stringify (JObj [("q", JNum 1)]))) |} in
  let resp := {| response_id := 7; clone_text := Ok "ok" |} in
  fst (fetch "12:00:02" "/api/x" opts (Fulfilled resp) (boot blank_page))
  = Fulfilled resp
  /\ logEntries (snd (fetch "12:00:02" "/api/x" opts (Fulfilled resp)
                        (boot blank_page)))
     = [entry_of "[12:00:02] [POST] /api/x"
          (JObj [("method", JStr "POST"); ("url", JStr "/api/x");
                 ("body", JObj [("q", JNum 1)]); ("response", JStr "ok")])].
Proof. split; vm_compute; reflexivity. Qed.


(** *** The cookie capture *)

Lemma cookie_step_pair (acc : list (string * json)) (c : string) :
  cookie_step acc c
  = match piece_pair c with
    | Some (k, v) =>
        match decodeURIComponent v with
        | Ok d => Ok (obj_set (trim k) (JStr d) acc)
        | Throw e => Throw e
        end
    | None => Ok acc
    end.
Proof.
  unfold cookie_step, piece_pair.
  destruct (split "=" c) as [|k [|v l]]; try reflexivity.
  now destruct (negb (String.eqb k "") && negb (String.eqb v "")).
Qed.

Lemma reduce_cookie_step (l : list string) (acc m : list (string * json)) :
  reduce cookie_step l acc = Ok m ->
  Forall (fun kv => is_ok (decodeURIComponent (snd kv)) = true)
    (omap piece_pair l)
  /\ forall k,
       obj_get k m
       = match last_cookie k (omap piece_pair l) with
         | Some v => Some (JStr (catch (decodeURIComponent v) ""))
         | None => obj_get k acc
         end.
Proof.
  revert acc. induction l as [|c l IH]; intros acc H.
  - cbn in H. injection H as <-. split; [constructor | reflexivity].
  - cbn [reduce] in H. unfold mbind, result_bind, Js.bind in H.
    rewrite cookie_step_pair in H. cbn [omap list_omap].
    destruct (piece_pair c) as [[n v]|].
    + destruct (decodeURIComponent v) as [d|e] eqn:Ed; [|discriminate].
      destruct (IH _ H) as [HF Hk]. split.
      * constructor; [cbn [snd]; now rewrite Ed | exact HF].
      * intros k. rewrite Hk. cbn [last_cookie].
        destruct (last_cookie k (omap piece_pair l)); [reflexivity|].
        rewrite obj_get_set.
        destruct (String.eqb k (trim n)); [now rewrite Ed | reflexivity].
    + exact (IH _ H).
Qed.

(** When the capture returns, every pair decoded and each name of the
    mapping reads the decoded value of the last pair of that trimmed
    name; the mapping has no other name. *)
Lemma cookies_of_lookup (document_cookie : string) (m : list (string * json)) :
  cookies_of document_cookie = Ok m ->
  forall k,
    obj_get k m
    = match last_cookie k (cookie_pairs document_cookie) with
      | Some v => Some (JStr (catch (decodeURIComponent v) ""))
      | None => None
      end.
Proof.
  intros H k. unfold cookies_of in H.
  destruct (reduce_cookie_step _ _ _ H) as [_ Hk]. exact (Hk k).
Qed.

(** The capture returns as soon as every pair decodes. *)
Lemma cookies_of_returns (document_cookie : string) :
  Forall (fun kv => is_ok (decodeURIComponent (snd kv)) = true)
    (cookie_pairs document_cookie) ->
  exists m, cookies_of document_cookie = Ok m.
Proof.
  unfold cookies_of, cookie_pairs.
  generalize (@nil (string * json)) as acc.
  induction (split ";" document_cookie) as [|c l IH]; intros acc HF.
  - now exists acc.
  - cbn [reduce]. unfold mbind, result_bind, Js.bind.
    rewrite cookie_step_pair. cbn [omap list_omap] in HF.
    destruct (piece_pair c) as [[n v]|].
    + apply Forall_cons in HF as [Hv HF]. cbn [snd] in Hv.
      destruct (decodeURIComponent v); [|discriminate]. now apply IH.
    + now apply IH.
Qed.

(** C8.  The capture maps the trimmed name of each pair to its decoded
    value, a later pair of the same name replacing an earlier one, and
    skips a piece without a name or without a value (a name of white
    space alone counts as a name and is trimmed to the empty name).  It
    does not do so
    for every cookie string: a value that is no valid percent-encoding
    makes [decodeURIComponent] throw and the capture raises, and a value
    that holds an equals sign is cut at it. *)
Theorem cookies_of_raises :
  cookies_of "a=1; b=%20x; a=2" = Ok [("a", JStr "2"); ("b", JStr " x")]
  /\ cookies_of "k=;=v;novalue" = Ok []
  /\ cookies_of "a=1; =v" = Ok [("a", JStr "1"); ("", JStr "v")]
  /\ cookies_of "" = Ok []
  /\ cookies_of "theme=dark; discount=50%" = Throw URIError
  /\ cookies_of "lang=%E0%A4%A" = Throw URIError
  /\ cookies_of "tok=abc==" = Ok [("tok", JStr "abc")]
  /\ fst (init percent_page (boot percent_page)) = Throw URIError.
Proof. repeat split; vm_compute; reflexivity. Qed.

(** *** The injected globals *)

Lemma init_session_only (p p' : page) (s : state) :
  storage p' = storage p -> cookie p' = cookie p ->
  pathname p' = pathname p -> clock p' = clock p ->
  session_of (globals p') = session_of (globals p) ->
  init p' s = init p s.
Proof.
  intros Hst Hc Hp Hk Hs. unfold init, restore_log, static_captures.
  now rewrite Hst, Hc, Hp, Hk, Hs.
Qed.

Lemma session_of_insert_ne (g : gmap string json) (k : string) (v : json) :
  k <> "__DEVBOX_SESSION" -> session_of (<[k := v]> g) = session_of g.
Proof. intros H. unfold session_of. now rewrite lookup_insert_ne. Qed.

(** C9.  The initialization reads [__DEVBOX_SESSION] once and takes the
    empty object when it is absent or falsy.  It never reads
    [__DEVBOX_GET], [__DEVBOX_POST] or [__DEVBOX_FILE]: whatever they
    hold, the run is the same, and a page that injects all four logs the
    session, the cookies and the page only. *)
Theorem init_ignores_GET_POST_FILE :
  (forall (p : page) (v : json) (s : state),
      init (with_globals (<[ "__DEVBOX_GET" := v ]> (globals p)) p) s = init p s
      /\ init (with_globals (<[ "__DEVBOX_POST" := v ]> (globals p)) p) s = init p s
      /\ init (with_globals (<[ "__DEVBOX_FILE" := v ]> (globals p)) p) s = init p s)
  /\ session_of ∅ = JObj []
  /\ session_of {[ "__DEVBOX_SESSION" := JNull ]} = JObj []
  /\ map (fun e => get_prop e "title")
       (logEntries (exec (init injected_page) (boot injected_page)))
     = [ Ok (Some (JStr "[12:00:00] [SESSION]"));
         Ok (Some (JStr "[12:00:00] [COOKIES]"));
         Ok (Some (JStr "[12:00:00] [PAGE]")) ]
  /\ map (fun e => get_prop e "obj")
       (logEntries (exec (init injected_page) (boot injected_page)))
     = [ Ok (Some (JObj [("user", JStr "u1")]));
         Ok (Some (JObj []));
         Ok (Some (JObj [("pathname", JStr "/")])) ].
Proof.
  split; [|repeat split; vm_compute; reflexivity].
  intros p v s.
  repeat split; apply init_session_only; try reflexivity;
    apply session_of_insert_ne; discriminate.
Qed.

End Interceptors.

(* ===================================================================== *)
(** ** The renderer *)
(* ===================================================================== *)

Module Renderer.

(** A new entry goes to the front of the list pane. *)
Lemma new_entry_first (ts title : string) (obj : json) (s : state) :
  head (sidebar (addLogEntry ts title obj s))
  = Some {| textContent := Some (JStr (label_of ts title));
            onclick_obj := Some obj |}.
Proof. reflexivity. Qed.

(** The restored entries follow in stored order. *)
Lemma restored_in_order (l : list json) (s s' : state) :
  forEach restore_entry l s = (Ok (), s') ->
  sidebar s' = (sidebar s ++ map restored_item l)%list.
Proof.
  intros H. pose proof (Store.forEach_restore_entry_inv l s s' H) as Hnn.
  rewrite (Store.forEach_restore_entry l s Hnn) in H. now injection H as <-.
Qed.

(** Selecting an item shows its payload, indented; an empty object shows
    as the empty text; an item restored from an entry without payload
    makes the handler throw. *)
Example section_onclick_examples :
  mainView (exec (section_onclick
                    {| textContent := None;
                       onclick_obj := Some (JObj [("a", JArr [JNum 1; JNull])]) |})
              (boot blank_page))
  = "{" +:+ String "010" ("  " +:+ quote "a" +:+ ": ["
      +:+ String "010" ("    1," +:+ String "010" ("    null"
      +:+ String "010" ("  ]" +:+ String "010" "}"))))
  /\ mainView (exec (section_onclick
                       {| textContent := None; onclick_obj := Some (JObj []) |})
                 (set_mainView "x" (boot blank_page)))
     = ""
  /\ fst (section_onclick (restored_item (JObj [("title", JStr "t")]))
             (boot blank_page))
     = Throw TypeError.
Proof. repeat split; vm_compute; reflexivity. Qed.

(** The shortcut is [toggle]. *)
Lemma keydown_shortcut (s : state) :
  keydown true false "`" s = toggle s
  /\ keydown false true "`" s = toggle s
  /\ keydown false false "`" s = s
  /\ keydown true false "a" s = s.
Proof. now repeat split. Qed.

End Renderer.

(* ===================================================================== *)
(** ** The control surface *)
(* ===================================================================== *)

Module Control.

Lemma panel_ok_displayed (s : state) : panel_ok s -> visible s = displayed s.
Proof.
  unfold panel_ok, displayed. intros ->. now destruct (visible s).
Qed.

Lemma keeps_lift {A : Type} (r : result A) : keeps_panel (lift r).
Proof. now intros s. Qed.

Lemma keeps_modify (f : state -> state) :
  (forall s, visible (f s) = visible s /\ display (f s) = display s) ->
  keeps_panel (modify f).
Proof. intros H s. apply H. Qed.

Lemma keeps_bind {A B : Type} (m : M A) (k : A -> M B) :
  keeps_panel m -> (forall a, keeps_panel (k a)) -> keeps_panel (m ≫= k).
Proof.
  intros Hm Hk s. unfold mbind, M_bind.
  destruct (Hm s) as [H1 H2]. destruct (m s) as [[a|e] s1]; cbn in *.
  - destruct (Hk a s1) as [H3 H4]. now rewrite H3, H4.
  - now split.
Qed.

Lemma keeps_forEach (f : json -> M unit) (l : list json) :
  (forall x, keeps_panel (f x)) -> keeps_panel (forEach f l).
Proof.
  intros Hf. induction l as [|x l IH]; cbn [forEach].
  - now intros s.
  - apply keeps_bind; [apply Hf | intros _; exact IH].
Qed.

Lemma keeps_init (p : page) : keeps_panel (init p).
Proof.
  unfold init. apply keeps_bind.
  - unfold restore_log. apply keeps_bind; [apply keeps_lift|]. intros v.
    destruct v; try apply keeps_lift. cbn [restore].
    apply keeps_bind; [now apply keeps_modify|]. intros _.
    apply keeps_forEach. intros x. unfold restore_entry.
    apply keeps_bind; [apply keeps_lift|]. intros t. now apply keeps_modify.
  - intros _. unfold static_captures.
    repeat (apply keeps_bind; [now apply keeps_modify || apply keeps_lift|];
            intros ?).
    now apply keeps_modify.
Qed.

(** The state the operations start from, whether or not the
    initialization ran to its end. *)
Lemma panel_ok_init (p : page) : panel_ok (exec (init p) (boot p)).
Proof.
  unfold panel_ok, exec. destruct (keeps_init p (boot p)) as [-> ->].
  reflexivity.
Qed.

Lemma panel_ok_step (c : control) (s : state) : panel_ok (control_step c s).
Proof. destruct c; unfold panel_ok; cbn; try reflexivity. Qed.

Lemma panel_ok_run (cs : list control) (s : state) :
  panel_ok s -> panel_ok (run_controls cs s).
Proof.
  revert s. induction cs as [|c cs IH]; intros s H; [exact H|].
  cbn [run_controls fold_left]. apply IH, panel_ok_step.
Qed.

(** C6.  After any sequence of [open], [close], [toggle] and clicks on the
    tab from the state the script starts in, the flag [visible] holds
    exactly when the panel is displayed, and toggling twice gives back
    the same flag and the same display. *)
Theorem visible_matches_display (p : page) (cs : list control) :
  let s := run_controls cs (exec (init p) (boot p)) in
  visible s = displayed s
  /\ isOpen s = displayed s
  /\ visible (toggle (toggle s)) = visible s
  /\ display (toggle (toggle s)) = display s
  /\ displayed (toggle (toggle s)) = displayed s.
Proof.
  intros s.
  assert (H : panel_ok s) by apply panel_ok_run, panel_ok_init.
  pose proof (panel_ok_displayed s H) as Hd.
  assert (Hv : visible (toggle (toggle s)) = visible s).
  { cbn. apply negb_involutive. }
  assert (Hs : display (toggle (toggle s)) = display s).
  { rewrite H. cbn. now destruct (visible s). }
  repeat split; try assumption.
  unfold displayed. now rewrite Hs.
Qed.

(** *** Calling an operation twice *)

(** C7, as the specification states it, fails for [toggle]: from the
    closed panel one call opens it and a second call closes it again. *)
Lemma toggle_twice_differs :
  isOpen (call Toggle (boot blank_page)) = true
  /\ isOpen (call Toggle (call Toggle (boot blank_page))) = false
  /\ call Toggle (call Toggle (boot blank_page)) <> call Toggle (boot blank_page).
Proof.
  repeat split. intros H. apply (f_equal visible) in H. discriminate.
Qed.

(** C7, amended.  Every operation of [window.DevBox] other than [toggle]
    leaves the same state when called twice as when called once; in
    particular the panel is open after one and after two calls of [open].
    Two calls of [toggle] give back the flag it started from. *)
Theorem api_idempotent_except_toggle (c : api_call) (s : state) :
  c <> Toggle ->
  call c (call c s) = call c s
  /\ isOpen (call Open s) = true
  /\ isOpen (call Open (call Open s)) = true
  /\ isOpen (call Toggle (call Toggle s)) = isOpen s.
Proof.
  intros Hc. split; [|repeat split; cbn; apply negb_involutive].
  destruct c; try congruence; try reflexivity.
  cbn. unfold clear, set_localStorage. cbn. now rewrite delete_delete_eq.
Qed.

Lemma api_idempotent_except_toggle_witness :
  call Clear (call Clear (exec (init blank_page) (boot blank_page)))
  = call Clear (exec (init blank_page) (boot blank_page))
  /\ isOpen (call Open (call Open (boot blank_page))) = true.
Proof.
  destruct (api_idempotent_except_toggle Clear
              (exec (init blank_page) (boot blank_page)))
    as (H1 & _ & _ & _); [discriminate|].
  destruct (api_idempotent_except_toggle Open (boot blank_page))
    as (_ & _ & H3 & _); [discriminate|].
  split; [exact H1 | exact H3].
Defined.

End Control.

(* ===================================================================== *)
(** ** Initialization as a whole *)
(* ===================================================================== *)

Module Startup.

Import JsonFacts.

(** *** Statements and the relation they keep *)

Lemma keeps_rel_lift {A : Type} (R : state -> state -> Prop) (r : result A) :
  (forall s, R s s) -> keeps R (lift r).
Proof. intros HR s. apply HR. Qed.

Lemma keeps_rel_modify (R : state -> state -> Prop) (f : state -> state) :
  (forall s, R s (f s)) -> keeps R (modify f).
Proof. intros H s. apply H. Qed.

Lemma keeps_rel_bind {A B : Type} (R : state -> state -> Prop)
    (m : M A) (k : A -> M B) :
  (forall s1 s2 s3, R s1 s2 -> R s2 s3 -> R s1 s3) ->
  keeps R m -> (forall a, keeps R (k a)) -> keeps R (m ≫= k).
Proof.
  intros Htrans Hm Hk s. unfold mbind, M_bind.
  specialize (Hm s). destruct (m s) as [[a|e] s1]; cbn [snd] in *.
  - exact (Htrans _ _ _ Hm (Hk a s1)).
  - exact Hm.
Qed.

Lemma keeps_rel_forEach (R : state -> state -> Prop) (f : json -> M unit)
    (l : list json) :
  (forall s, R s s) ->
  (forall s1 s2 s3, R s1 s2 -> R s2 s3 -> R s1 s3) ->
  (forall x, keeps R (f x)) -> keeps R (forEach f l).
Proof.
  intros Hrefl Htrans Hf. induction l as [|x l IH]; cbn [forEach].
  - intros s. apply Hrefl.
  - apply keeps_rel_bind; [exact Htrans|apply Hf|intros _; exact IH].
Qed.

(** The restore of lines 117-150 writes nothing to the storage. *)
Lemma restore_log_storage (p : page) (s : state) :
  localStorage (snd (restore_log p s)) = localStorage s.
Proof.
  revert s.
  change (keeps (fun s s' => localStorage s' = localStorage s) (restore_log p)).
  assert (Hrefl : forall s : state, localStorage s = localStorage s)
    by reflexivity.
  assert (Htrans : forall s1 s2 s3 : state,
             localStorage s2 = localStorage s1 ->
             localStorage s3 = localStorage s2 ->
             localStorage s3 = localStorage s1) by (intros; congruence).
  unfold restore_log. apply keeps_rel_bind; [exact Htrans| |].
  - now apply keeps_rel_lift.
  - intros v. destruct v; cbn [restore]; try now apply keeps_rel_lift.
    apply keeps_rel_bind; [exact Htrans| |].
    + now apply keeps_rel_modify.
    + intros _. apply keeps_rel_forEach; [exact Hrefl|exact Htrans|].
      intros x. unfold restore_entry.
      apply keeps_rel_bind; [exact Htrans| |].
      * now apply keeps_rel_lift.
      * intros t. now apply keeps_rel_modify.
Qed.

(** *** The state a completed initialization leaves *)

Lemma init_closed_form (p : page) (l : list json)
    (cookies : list (string * json)) :
  load (storage p) = Ok (JArr l) ->
  Forall (fun e => e <> JNull) l ->
  cookies_of (cookie p) = Ok cookies ->
  init p (boot p) = (Ok (), initialised p l cookies).
Proof.
  intros Hload Hl Hc.
  unfold init, mbind, M_bind.
  rewrite (Store.restore_log_stored p l Hload Hl).
  now rewrite (Store.static_captures_ok p cookies _ Hc).
Qed.

Lemma init_returns_closed (p : page) (s : state) :
  init p (boot p) = (Ok (), s) ->
  exists l cookies,
    load (storage p) = Ok (JArr l)
    /\ Forall (fun e => e <> JNull) l
    /\ cookies_of (cookie p) = Ok cookies
    /\ s = initialised p l cookies.
Proof.
  intros H.
  destruct (Store.init_returns_inv p s H) as (l & cookies & Hl & Hnn & Hc).
  exists l, cookies. repeat split; try assumption.
  rewrite (init_closed_form p l cookies Hl Hnn Hc) in H. congruence.
Qed.




Lemma forEach_stops_at_null (l1 l2 : list json) (s : state) :
  Forall (fun e => e <> JNull) l1 ->
  forEach restore_entry (l1 ++ JNull :: l2)%list s
  = (Throw TypeError, set_sidebar (sidebar s ++ map restored_item l1)%list s).
Proof.
  revert s. induction l1 as [|e l1 IH]; intros s HF.
  - cbn. rewrite List.app_nil_r. now destruct s.
  - apply Forall_cons in HF as [He HF].
    cbn [List.app forEach]. unfold mbind, M_bind.
    assert (E : restore_entry e s
                = (Ok (), set_sidebar (sidebar s ++ [restored_item e])%list s)).
    { destruct e; try congruence; reflexivity. }
    rewrite E, (IH _ HF). cbn. now rewrite <- List.app_assoc.
Qed.

(** X3.  A [null] among the stored entries stops the initialization with
    a [TypeError] at that entry: the entries before it are listed, the
    memory holds the whole array, the store is as the page load found it,
    and nothing of this load is logged. *)
Theorem init_stops_at_null (p : page) (l1 l2 : list json) :
  load (storage p) = Ok (JArr (l1 ++ JNull :: l2)%list) ->
  Forall (fun e => e <> JNull) l1 ->
  init p (boot p)
  = (Throw TypeError,
     set_sidebar (map restored_item l1)
       (set_logEntries (l1 ++ JNull :: l2)%list (boot p)))
  /\ localStorage (started p) = storage p
  /\ length (sidebar (started p)) = length l1.
Proof.
  intros Hload Hl.
  assert (E : init p (boot p)
              = (Throw TypeError,
                 set_sidebar (map restored_item l1)
                   (set_logEntries (l1 ++ JNull :: l2)%list (boot p)))).
  { unfold init, restore_log, mbind, M_bind, lift. rewrite Hload.
    cbn [restore]. unfold mbind, M_bind, modify.
    now rewrite (forEach_stops_at_null l1 l2 _ Hl). }
  split; [exact E|]. unfold started, exec. rewrite E. cbn [snd].
  split; [reflexivity|]. cbn [set_sidebar sidebar]. apply length_map.
Qed.

Lemma init_stops_at_null_witness :
  fst (init (with_storage {[ LOGS := "[{},null,{}]" ]} blank_page)
         (boot (with_storage {[ LOGS := "[{},null,{}]" ]} blank_page)))
  = Throw TypeError
  /\ length (sidebar (started (with_storage {[ LOGS := "[{},null,{}]" ]}
                                blank_page))) = 1%nat.
Proof.
  destruct (init_stops_at_null
              (with_storage {[ LOGS := "[{},null,{}]" ]} blank_page)
              [JObj []] [JObj []]) as (E & _ & Hlen).
  - reflexivity.
  - repeat constructor. discriminate.
  - split; [now rewrite E|exact Hlen].
Defined.

Lemma boot_storage (p p' : page) : storage p' = storage p -> boot p' = boot p.
Proof. intros H. unfold boot. now rewrite H. Qed.

Lemma restore_log_storage_only (p p' : page) (s : state) :
  storage p' = storage p -> restore_log p' s = restore_log p s.
Proof. intros H. unfold restore_log. now rewrite H. Qed.

Lemma init_restore_throws (p : page) (e : exn) :
  fst (restore_log p (boot p)) = Throw e ->
  init p (boot p) = (Throw e, snd (restore_log p (boot p))).
Proof.
  intros H. unfold init, mbind, M_bind.
  destruct (restore_log p (boot p)) as [[[]|x] s1]; cbn [fst snd] in *;
    congruence.
Qed.

(** X4.  A stored value that makes the restore throw is left in the store
    as it is, so every later page load that finds this storage stops with
    the same exception; the script never repairs its own key. *)
Theorem corrupt_store_persists (p : page) (e : exn) :
  fst (restore_log p (boot p)) = Throw e ->
  fst (init p (boot p)) = Throw e
  /\ localStorage (started p) = storage p
  /\ forall p' : page,
       storage p' = localStorage (started p) ->
       fst (init p' (boot p')) = Throw e
       /\ localStorage (started p') = storage p.
Proof.
  intros H.
  assert (Hst : localStorage (started p) = storage p).
  { unfold started, exec. rewrite (init_restore_throws p e H). cbn [snd].
    now rewrite restore_log_storage. }
  split; [now rewrite (init_restore_throws p e H)|].
  split; [exact Hst|].
  intros p' Hp'. rewrite Hst in Hp'.
  assert (H' : fst (restore_log p' (boot p')) = Throw e).
  { now rewrite (boot_storage p p' Hp'), (restore_log_storage_only p p' _ Hp'). }
  split; [now rewrite (init_restore_throws p' e H')|].
  unfold started, exec. rewrite (init_restore_throws p' e H'). cbn [snd].
  now rewrite restore_log_storage.
Qed.

Lemma corrupt_store_persists_witness :
  fst (init (with_storage truncated_log blank_page)
         (boot (with_storage truncated_log blank_page)))
  = Throw SyntaxError
  /\ forall p' : page,
       storage p' = localStorage (started (with_storage truncated_log blank_page)) ->
       fst (init p' (boot p')) = Throw SyntaxError.
Proof.
  destruct (corrupt_store_persists (with_storage truncated_log blank_page)
              SyntaxError) as (E & _ & Hnext).
  - reflexivity.
  - split; [exact E|]. intros p' Hp'. exact (proj1 (Hnext p' Hp')).
Defined.

Lemma init_lengths (p : page) (s : state) :
  init p (boot p) = (Ok (), s) ->
  stopSubmit s = true /\ length (sidebar s) = length (logEntries s).
Proof.
  intros H.
  destruct (init_returns_closed p s H) as (l & cookies & _ & _ & _ & ->).
  split; [reflexivity|].
  unfold initialised.
  rewrite !Store.logEntries_addLogEntry, !Store.sidebar_addLogEntry.
  cbn [set_sidebar set_logEntries sidebar logEntries length].
  rewrite !List.length_app, length_map. cbn [length]. lia.
Qed.

End Startup.

(* ===================================================================== *)
(** ** The handlers, in any order *)
(* ===================================================================== *)

Module Session.

Import JsonFacts.

(** The cases of [handle e s], each reduced to the operation it runs. *)
Ltac handle_cases e s :=
  destruct e as [c|ck mk key|c| |ts path t|ts url opts orig|i];
  cbn [handle];
  [ destruct c; cbn [control_step]
  | unfold keydown; destruct ((ck || mk) && String.eqb key "`")
  | destruct c; cbn [call]
  |
  | unfold submit_listener; destruct (stopSubmit s) eqn:?, t; cbn [snd]
  | destruct orig; cbn [fetch snd]
  | let it := fresh "it" in
    destruct (sidebar s !! i) as [it|] eqn:?;
    [ unfold exec, section_onclick, mbind, M_bind, lift, modify;
      destruct (keys_length (onclick_obj it)); cbn [snd] | ] ].

Lemma run_nil (s : state) : run [] s = s.
Proof. reflexivity. Qed.

Lemma run_cons (e : event) (evs : list event) (s : state) :
  run (e :: evs) s = run evs (handle e s).
Proof. reflexivity. Qed.

Lemma run_invariant (P : state -> Prop) :
  (forall e s, P s -> P (handle e s)) ->
  forall evs s, P s -> P (run evs s).
Proof.
  intros Hstep evs. induction evs as [|e evs IH]; intros s Hs.
  - exact Hs.
  - rewrite run_cons. apply IH, Hstep, Hs.
Qed.

Lemma stopSubmit_handle (e : event) (s : state) :
  stopSubmit (handle e s) = stopSubmit s.
Proof. handle_cases e s; try reflexivity; cbn; congruence. Qed.

Lemma stopSubmit_initialised (p : page) (l : list json)
    (cookies : list (string * json)) :
  stopSubmit (initialised p l cookies) = true.
Proof. reflexivity. Qed.

(** X5.  Once the script has started, no handler and no method of
    [window.DevBox] turns the interception off: after any events, the
    submit of a form is prevented and logged as one more entry. *)
Theorem forms_always_intercepted (p : page) (s0 : state) :
  init p (boot p) = (Ok (), s0) ->
  forall (evs : list event) (ts path action : string)
         (fd : list (string * json)),
    let s := run evs s0 in
    stopSubmit s = true
    /\ fst (submit_listener ts path (HTMLFormElement action fd) s) = true
    /\ length (logEntries (handle (OnSubmit ts path (HTMLFormElement action fd)) s))
       = S (length (logEntries s)).
Proof.
  intros Hinit evs ts path action fd s.
  destruct (Startup.init_returns_closed p s0 Hinit) as (l & cookies & _ & _ & _ & ->).
  assert (Hs : stopSubmit s = true).
  { unfold s. apply (run_invariant (fun s => stopSubmit s = true)).
    - intros e s1. now rewrite stopSubmit_handle.
    - apply stopSubmit_initialised. }
  split; [exact Hs|].
  cbn [handle]. unfold submit_listener. rewrite Hs. cbn [fst snd].
  split; [reflexivity|].
  rewrite Store.logEntries_addLogEntry, List.length_app. cbn [length]. lia.
Qed.

Lemma forms_always_intercepted_witness :
  fst (submit_listener "12:00:03" "/" signup_form
         (run [OnApi (SetBlockRedirects (Some (JBool false))); OnApi Close;
               OnClearBtn]
            (started blank_page)))
  = true.
Proof.
  unfold signup_form.
  apply (forms_always_intercepted blank_page (started blank_page)).
  reflexivity.
Defined.

Lemma panel_ok_handle (e : event) (s : state) :
  panel_ok s -> panel_ok (handle e s).
Proof.
  unfold panel_ok. intros H.
  handle_cases e s; cbn; try assumption; try reflexivity;
    now destruct (visible s).
Qed.

(** X6.  Whatever the outcome of the initialization and whatever events
    follow (controls, the shortcut, the API, both ways of clearing,
    submits, requests, clicks on items), the flag the API reports and the
    style of the panel agree. *)
Theorem visible_matches_display_always (p : page) (evs : list event) :
  let s := run evs (started p) in
  visible s = displayed s /\ isOpen s = displayed s.
Proof.
  intros s.
  assert (H : panel_ok s).
  { unfold s. apply (run_invariant panel_ok).
    - intros e s1. apply panel_ok_handle.
    - apply Control.panel_ok_init. }
  split; apply (Control.panel_ok_displayed s H).
Qed.

Lemma without_flag_handle (e : event) (s1 s2 : state) :
  without_flag s1 = without_flag s2 ->
  without_flag (handle e s1) = without_flag (handle e s2).
Proof.
  destruct s1 as [v1 b1 st1 d1 sb1 mv1 le1 ls1],
           s2 as [v2 b2 st2 d2 sb2 mv2 le2 ls2].
  unfold without_flag, set_blockRedirects. cbn. intros [= -> -> -> -> -> -> ->].
  destruct e as [c|ck mk key|c| |ts path t|ts url opts orig|i]; cbn [handle].
  - destruct c; reflexivity.
  - unfold keydown. destruct ((ck || mk) && String.eqb key "`"); reflexivity.
  - destruct c; reflexivity.
  - reflexivity.
  - unfold submit_listener. cbn [stopSubmit].
    destruct st2, t; reflexivity.
  - destruct orig; reflexivity.
  - cbn [sidebar]. destruct (sb2 !! i) as [it|]; [|reflexivity].
    unfold exec, section_onclick, mbind, M_bind, lift, modify.
    destruct (keys_length (onclick_obj it)); reflexivity.
Qed.

Lemma without_flag_setBlockRedirects (val : value) (s : state) :
  without_flag (setBlockRedirects val s) = without_flag s.
Proof. reflexivity. Qed.

Lemma without_flag_run (evs : list event) (s1 s2 : state) :
  without_flag s1 = without_flag s2 ->
  without_flag (run evs s1)
  = without_flag
      (run (List.filter (fun e => negb (is_setBlockRedirects e)) evs) s2).
Proof.
  revert s1 s2. induction evs as [|e evs IH]; intros s1 s2 H.
  - exact H.
  - rewrite run_cons. cbn [List.filter].
    destruct (is_setBlockRedirects e) eqn:E; cbn [negb].
    + apply IH. destruct e as [| |[]| | | |]; try discriminate E.
      cbn [handle call]. now rewrite without_flag_setBlockRedirects.
    + rewrite run_cons. apply IH. now apply without_flag_handle.
Qed.

(** X7.  [blockRedirects] is inert: a run of events leaves every other
    variable, the panel and the store exactly as the same run without its
    calls of [setBlockRedirects] does; no handler reads the flag. *)
Theorem blockRedirects_is_inert (evs : list event) (s : state) :
  without_flag (run evs s)
  = without_flag (run (List.filter (fun e => negb (is_setBlockRedirects e)) evs) s)
  /\ forall val : value,
       blockRedirects (handle (OnApi (SetBlockRedirects val)) s) = truthy val.
Proof.
  split; [now apply without_flag_run|reflexivity].
Qed.







Lemma sidebar_handle (e : event) (s : state) :
  stopSubmit s = true ->
  (length (sidebar s) <= length (logEntries s))%nat ->
  (length (sidebar (handle e s)) <= length (logEntries (handle e s)))%nat
  /\ (is_clearBtn e = false ->
      length (sidebar s) = length (logEntries s) ->
      length (sidebar (handle e s)) = length (logEntries (handle e s))).
Proof.
  intros Hs H.
  handle_cases e s; try discriminate; try (split; [exact H|now intros _]);
    cbn [clear clearBtn_onclick sidebar logEntries set_localStorage
         set_logEntries set_mainView set_sidebar length];
    try rewrite Store.logEntries_addLogEntry, Store.sidebar_addLogEntry,
      List.length_app;
    cbn [length]; split; try lia; try discriminate; intros; lia.
Qed.

(** X10.  After a completed initialization and any events, the list pane
    never shows more items than the memory holds entries, and it shows
    exactly as many as long as the Clear Logs button was not used. *)
Theorem list_pane_tracks_memory (p : page) (s0 : state) (evs : list event) :
  init p (boot p) = (Ok (), s0) ->
  (length (sidebar (run evs s0)) <= length (logEntries (run evs s0)))%nat
  /\ (forallb (fun e => negb (is_clearBtn e)) evs = true ->
      length (sidebar (run evs s0)) = length (logEntries (run evs s0))).
Proof.
  intros Hinit.
  destruct (Startup.init_lengths p s0 Hinit)
    as (Hs & Hlen).
  clear Hinit. revert s0 Hs Hlen.
  induction evs as [|e evs IH]; intros s Hs Hlen.
  - split; [rewrite run_nil; lia|now intros _].
  - rewrite run_cons.
    assert (Hle : (length (sidebar s) <= length (logEntries s))%nat) by lia.
    destruct (sidebar_handle e s Hs Hle) as [H1 H2].
    assert (Hs' : stopSubmit (handle e s) = true)
      by now rewrite stopSubmit_handle.
    split.
    + clear IH H2. revert Hs' H1. generalize (handle e s). clear.
      induction evs as [|e evs IH]; intros s Hs H; [exact H|].
      rewrite run_cons. apply IH; [now rewrite stopSubmit_handle|].
      now apply sidebar_handle.
    + cbn [forallb]. intros Hev. apply andb_prop in Hev as [He Hev].
      apply negb_true_iff in He.
      exact (proj2 (IH (handle e s) Hs' (H2 He Hlen)) Hev).
Qed.

Lemma list_pane_tracks_memory_witness :
  (length (sidebar (run [OnClearBtn; OnSubmit "12:00:03" "/" signup_form]
                      (started blank_page)))
   <= length (logEntries (run [OnClearBtn; OnSubmit "12:00:03" "/" signup_form]
                            (started blank_page))))%nat.
Proof.
  apply (list_pane_tracks_memory blank_page (started blank_page)
           [OnClearBtn; OnSubmit "12:00:03" "/" signup_form]).
  reflexivity.
Defined.

Lemma same_other_keys_handle (e : event) (s : state) :
  same_other_keys s (handle e s).
Proof.
  intros k Hk.
  handle_cases e s; try reflexivity; cbn;
    try (now apply lookup_insert_ne); now apply lookup_delete_ne.
Qed.

Lemma same_other_keys_started (p : page) :
  same_other_keys (boot p) (started p).
Proof.
  intros k Hk. unfold started, exec, init, mbind, M_bind.
  pose proof (Startup.restore_log_storage p (boot p)) as H.
  destruct (restore_log p (boot p)) as [[[]|x] s1]; cbn [snd] in *.
  - destruct (cookies_of (cookie p)) as [cookies|x] eqn:Ec.
    + rewrite (Store.static_captures_ok p cookies _ Ec). cbn.
      rewrite !lookup_insert_ne by congruence. now rewrite H.
    + rewrite (Store.static_captures_throws p x _ Ec). cbn.
      rewrite !lookup_insert_ne by congruence. now rewrite H.
  - now rewrite H.
Qed.

(** X11.  The script touches one key of the storage only: whatever the
    outcome of the initialization and whatever events follow, every
    other key holds what the page load found. *)
Theorem other_keys_untouched (p : page) (evs : list event) (k : string) :
  k <> LOGS ->
  localStorage (run evs (started p)) !! k = storage p !! k.
Proof.
  intros Hk.
  change (storage p) with (localStorage (boot p)).
  transitivity (localStorage (started p) !! k);
    [|now apply same_other_keys_started].
  generalize (started p) as s.
  induction evs as [|e evs IH]; intros s; [reflexivity|].
  rewrite run_cons, IH. now apply same_other_keys_handle.
Qed.

Lemma other_keys_untouched_witness :
  localStorage
    (run [OnSubmit "12:00:03" "/" signup_form; OnApi Clear]
       (started (with_storage {[ "theme" := "dark" ]} blank_page)))
    !! "theme"
  = Some "dark".
Proof.
  rewrite (other_keys_untouched
             (with_storage {[ "theme" := "dark" ]} blank_page)
             [OnSubmit "12:00:03" "/" signup_form; OnApi Clear] "theme").
  - reflexivity.
  - discriminate.
Defined.

(** *** What the events bring into the log can be read back *)









(** *** Clicks on list items *)






End Session.

(* ===================================================================== *)
(** ** Cookies and responses *)
(* ===================================================================== *)

Module Capture.

Import JsonFacts.

#[local] Arguments String.append : simpl nomatch.

(** [decodeURIComponent] throws nothing but a [URIError]. *)
Lemma decode_throws_URIError (n : nat) :
  forall (s : string) (oct : list N) (need : nat) (e : exn),
    (String.length s <= n)%nat ->
    decode s oct need = Throw e -> e = URIError.
Proof.
  induction n as [|n IH]; intros s oct need e Hn H.
  - destruct s; [|cbn in Hn; lia]. cbn in H. destruct need; congruence.
  - destruct s as [|c r]; [cbn in H; destruct need; congruence|].
    cbn [decode] in H. cbn [String.length] in Hn.
    repeat match type of H with
           | context [match ?x with _ => _ end] => destruct x eqn:?
           end;
      try congruence;
      try (injection H as <-);
      (eapply IH; [|eassumption]); cbn [String.length] in *; lia.
Qed.

Lemma decodeURIComponent_throws (s : string) (e : exn) :
  decodeURIComponent s = Throw e -> e = URIError.
Proof. apply (decode_throws_URIError (String.length s)). lia. Qed.

Lemma reduce_cookie_step_outcome (l : list string) (acc : list (string * json)) :
  if forallb (fun kv => is_ok (decodeURIComponent (snd kv))) (omap piece_pair l)
  then exists m, reduce cookie_step l acc = Ok m
  else reduce cookie_step l acc = Throw URIError.
Proof.
  revert acc. induction l as [|c l IH]; intros acc.
  - cbn. now exists acc.
  - cbn [reduce omap list_omap]. unfold mbind, result_bind, Js.bind.
    rewrite Interceptors.cookie_step_pair.
    destruct (piece_pair c) as [[n v]|]; [|apply IH].
    cbn [forallb snd].
    destruct (decodeURIComponent v) as [d|e] eqn:Ed; cbn [is_ok andb].
    + apply IH.
    + now rewrite (decodeURIComponent_throws v e Ed).
Qed.

(** X14.  Reading the cookies either gives an object or throws a
    [URIError], and it gives an object exactly when the value of every
    piece that has a name and a value decodes; pieces without a name or
    without a value are never decoded. *)
Theorem cookies_of_outcome (document_cookie : string) :
  if forallb (fun kv => is_ok (decodeURIComponent (snd kv)))
       (cookie_pairs document_cookie)
  then exists m, cookies_of document_cookie = Ok m
  else cookies_of document_cookie = Throw URIError.
Proof. apply reduce_cookie_step_outcome. Qed.









End Capture.

(* ===================================================================== *)
(** ** The order of the list pane *)
(* ===================================================================== *)

Module Listing.

Import JsonFacts.

Lemma log_all_lists (evs : list logged) (s : state) :
  sidebar (log_all evs s) = (rev (map item_of_logged evs) ++ sidebar s)%list
  /\ logEntries (log_all evs s)
     = (logEntries s ++ map entry_of_logged evs)%list
  /\ map restored_item (map entry_of_logged evs) = map item_of_logged evs.
Proof.
  split; [|split].
  - revert s. induction evs as [|e evs IH]; intros s; [reflexivity|].
    cbn [log_all fold_left map rev]. fold (log_all evs).
    rewrite IH, Store.sidebar_addLogEntry, <- List.app_assoc. reflexivity.
  - apply Store.logEntries_log_all.
  - rewrite map_map. apply map_ext. reflexivity.
Qed.

(** X18.  A reload turns the list upside down: when the entries of a
    session that started from an empty log are restored by the next page
    load, the restored items are the items the session showed, in the
    opposite order (oldest first). *)
Theorem reload_reverses_list (evs : list logged) (s : state) (p' : page) :
  sidebar s = [] ->
  logEntries s = [] ->
  forallb (fun e => serializable (payload e)) evs = true ->
  evs <> [] \/ localStorage s !! LOGS = None ->
  storage p' = localStorage (log_all evs s) ->
  sidebar (snd (restore_log p' (boot p'))) = rev (sidebar (log_all evs s))
  /\ fst (restore_log p' (boot p')) = Ok ().
Proof.
  intros Hsb Hmem Hser Hne Hst.
  destruct (log_all_lists evs s) as (Hside & Hlog & Hitems).
  rewrite Hsb, List.app_nil_r in Hside. rewrite Hmem in Hlog. cbn [List.app] in Hlog.
  assert (Hload : load (storage p') = Ok (JArr (map entry_of_logged evs))).
  { destruct evs as [|e evs].
    - apply Store.load_absent. rewrite Hst. destruct Hne as [Hne|Hne];
        [congruence|exact Hne].
    - apply Store.load_stored.
      + rewrite Hst, Store.localStorage_log_all by discriminate.
        now rewrite Hlog.
      + now apply Store.serializable_logged. }
  assert (Hnn : Forall (fun x => x <> JNull) (map entry_of_logged evs)).
  { apply Forall_map, Forall_forall. intros x _. discriminate. }
  rewrite (Store.restore_log_stored p' _ Hload Hnn). cbn [fst snd].
  split; [|reflexivity].
  cbn [set_sidebar sidebar]. now rewrite Hside, rev_involutive, Hitems.
Qed.

Lemma reload_reverses_list_witness :
  sidebar (snd (restore_log
                  (with_storage
                     (localStorage (log_all two_events (clear (boot blank_page))))
                     blank_page)
                  (boot (with_storage
                           (localStorage
                              (log_all two_events (clear (boot blank_page))))
                           blank_page))))
  = rev (sidebar (log_all two_events (clear (boot blank_page)))).
Proof.
  apply (reload_reverses_list two_events (clear (boot blank_page))
           (with_storage
              (localStorage (log_all two_events (clear (boot blank_page))))
              blank_page)).
  - reflexivity.
  - reflexivity.
  - reflexivity.
  - left. discriminate.
  - reflexivity.
Defined.

End Listing.
